(** * main.cc: a command-line harness around the TVM graph executor

    The program parses [libmodel.so [name:path ...]], loads the module,
    and either times the executor ([evaluate]) or binds raw input files
    to tensors and runs it once ([inference]).

    The embedding follows main.cc function by function.  Machine
    integers are [Z] with the conversions written out, the two
    [std::unordered_map]s and the [tvm::Map]s are [gmap]s, doubles are
    binary64 values of [SpecFloat], and what the program does to the
    outside (file system, runtime, standard output) is recorded, in
    program order, in a trace carried by a state-and-error monad.

    The runtime itself (module loading, tensor allocation, the executor,
    the time evaluator) is not part of main.cc: a [World] record supplies
    what it answers.  The two array calls of the loader,
    [NDArray::Empty] and [CopyFromBytes], are modelled with the checks
    the library makes on their arguments, because the outcome of the
    loop over the inputs depends on them.  Module loading and the packed
    functions of the executor and of the time evaluator are taken to
    return; running out of memory is not modelled.  The [GetFunction]
    lookups, which only fetch handles, are not recorded. *)

From Stdlib Require Import ZArith List String Ascii Lia.
From Stdlib Require Import Floats.SpecFloat.
From stdpp Require Import gmap strings list fin_maps.
Import ListNotations.

Open Scope string_scope.
Open Scope list_scope.
Open Scope Z_scope.

(** ** Machine integers *)

Module CInt.

Definition wrap_unsigned (w x : Z) : Z := x mod 2 ^ w.

Definition wrap_signed (w x : Z) : Z :=
  (x + 2 ^ (w - 1)) mod 2 ^ w - 2 ^ (w - 1).

(** Conversions to [int], [uint32_t] and [size_t] (LP64). *)
Definition to_int : Z -> Z := wrap_signed 32.
Definition to_uint32 : Z -> Z := wrap_unsigned 32.
Definition to_size_t : Z -> Z := wrap_unsigned 64.

Definition INT_MAX : Z := 2147483647.

End CInt.
Import CInt.

(** [std::multiplies<size_t>()(a, b)]: both operands are converted to
    [size_t] and multiplied there. *)
Definition multiplies_size_t (a b : Z) : Z :=
  to_size_t (to_size_t a * to_size_t b).

(** [std::accumulate(first, last, init, std::multiplies<size_t>())] where
    [init] is the literal [1]: the accumulator has the type of [init],
    which is [int], so every step stores the [size_t] product back into
    an [int]. *)
Definition accumulate_int (shape : list Z) (init : Z) : Z :=
  fold_left (fun acc d => to_int (multiplies_size_t acc d)) shape init.

(** The product of the dimensions over the integers. *)
Definition product (shape : list Z) : Z := fold_right Z.mul 1 shape.

(** ** Strings *)

Fixpoint str_take (n : nat) (s : string) : string :=
  match n, s with
  | S n', String c s' => String c (str_take n' s')
  | _, _ => EmptyString
  end.

Fixpoint str_drop (n : nat) (s : string) : string :=
  match n, s with
  | S n', String _ s' => str_drop n' s'
  | _, _ => s
  end.

(** [s.find(c)] for a one-character pattern: the position of the first
    occurrence.  [None] stands for [std::string::npos], the largest
    [size_t], which is no position of a string. *)
Fixpoint string_find (c : ascii) (s : string) : option nat :=
  match s with
  | EmptyString => None
  | String a s' =>
      if Ascii.eqb a c then Some 0%nat else S <$> string_find c s'
  end.

(** [s.substr(pos, count)]: [min(count, size - pos)] characters from
    [pos]; [count = None] is the default [npos], that is, up to the end.
    The result [None] is [std::out_of_range], thrown when
    [pos > s.size()]. *)
Definition substr (s : string) (pos : nat) (count : option nat) : option string :=
  if (String.length s <? pos)%nat then None
  else Some (match count with
             | Some n => str_take n (str_drop pos s)
             | None => str_drop pos s
             end).

Definition contains_colon (s : string) : bool :=
  match string_find ":" s with Some _ => true | None => false end.

(** ** DLPack data types *)

(** [DLDataTypeCode] of dlpack.h, which is not part of main.cc; nothing
    below depends on the values. *)
Definition kDLInt : Z := 0.
Definition kDLUInt : Z := 1.
Definition kDLFloat : Z := 2.

Record DLDataType := mkDLDataType { code : Z; bits : Z; lanes : Z }.

(** [DLDataType{}], what [operator[]] of a [std::unordered_map] inserts
    for a key it does not hold. *)
Definition DLDataType_zero : DLDataType := mkDLDataType 0 0 0.

Definition dtype_map : gmap string DLDataType :=
  list_to_map
    [ ("float32", mkDLDataType kDLFloat 32 1); ("float16", mkDLDataType kDLFloat 16 1);
      ("int8", mkDLDataType kDLInt 8 1);       ("uint8", mkDLDataType kDLUInt 8 1);
      ("int16", mkDLDataType kDLInt 16 1);     ("uint16", mkDLDataType kDLUInt 16 1) ].

(** [m[k]] on a [std::unordered_map]: never fails; a missing key is
    inserted with a value-initialised [DLDataType]. *)
Definition umap_index (m : gmap string DLDataType) (k : string)
  : DLDataType * gmap string DLDataType :=
  match m !! k with
  | Some v => (v, m)
  | None => (DLDataType_zero, <[k := DLDataType_zero]> m)
  end.

Definition supported_dtypes : list string :=
  ["float32"; "float16"; "int8"; "uint8"; "int16"; "uint16"].

(** [size_t input_size = accumulate(...) * (dtype.bits / 8)]: the product
    of an [int] and an [int] ([bits] is a [uint8_t], promoted), converted
    to [size_t].  Signed overflow of that product is undefined in C++;
    here it wraps. *)
Definition input_size (shape : list Z) (dtype : DLDataType) : Z :=
  to_size_t (to_int (accumulate_int shape 1 * (bits dtype / 8))).

(** [size_t output_num = accumulate(...)]. *)
Definition output_num (shape : list Z) : Z :=
  to_size_t (accumulate_int shape 1).

(** The expected byte length in the words of the specification:
    product(shape) * bitwidth(dtype) / 8, over the integers. *)
Definition expected_bytes (shape : list Z) (dtype : DLDataType) : Z :=
  product shape * bits dtype / 8.

(** ** The runtime as main.cc sees it *)

(** [kDLCPU] of dlpack.h. *)
Definition kDLCPU : Z := 1.

Record DLDevice := mkDLDevice { device_type : Z; device_id : Z }.

(** The library's check of an element type, made by [NDArray::Empty]
    before it allocates.  The library is not part of main.cc; of its
    check the condition on the lanes is modelled, [lanes >= 1].  Its
    further conditions, on the width, hold for the six entries of the
    table and for the value-initialised triple alike, so the lanes decide
    for every type this program can pass. *)
Definition VerifyDataType (dtype : DLDataType) : bool := 1 <=? lanes dtype.

(** The byte size the library computes for an array: the dimensions
    multiplied up in a [size_t], times the bytes of one element,
    [(bits * lanes + 7) / 8]. *)
Definition GetDataSize (shape : list Z) (dtype : DLDataType) : Z :=
  let size := fold_left (fun size d => to_size_t (size * to_size_t d)) shape 1 in
  to_size_t (size * to_size_t ((bits dtype * lanes dtype + 7) / 8)).

(** Tensor handles: the executor's own input and output slots, and the
    arrays this program allocates with [NDArray::Empty], numbered in
    allocation order. *)
Inductive handle :=
| InputSlot (i : Z)
| OutputSlot (i : Z)
| Fresh (n : nat).

(** An allocated array; [t_bytes] is [None] until something is copied
    into it. *)
Record Tensor := mkTensor {
  t_shape : list Z;
  t_dtype : DLDataType;
  t_bytes : option (list Byte.byte)
}.

(** What the file system, the environment and the loaded module answer. *)
Record World := mkWorld {
  files : gmap string (list Byte.byte);   (* the regular files and their contents *)
  environ : gmap string string;           (* getenv *)
  shape_info : gmap string (list Z);      (* get_input_info()["shape"] *)
  dtype_info : gmap string string;        (* get_input_info()["dtype"] *)
  num_inputs : Z;                         (* get_num_inputs(), an int *)
  num_outputs : Z;                        (* get_num_outputs(), an int *)
  output_shape : list Z;                  (* get_output(0).Shape() after run() *)
  output_data : Z -> spec_float;          (* ((float* )output->data)[k] *)
  results_arr0 : spec_float               (* first double the time evaluator returns *)
}.

(** Everything the program does that is visible outside it, in program
    order.  [Call f] marks the entry of a function of main.cc; [Empty]
    and [CopyFromBytes] stand for an allocation and a copy that were
    carried out. *)
Inductive event :=
| Call (f : string)
| LoadFromFile (module_path : string)   (* Module::LoadFromFile *)
| CreateExecutor (dev : DLDevice)       (* mod_factory.GetFunction("default")(dev) *)
| GetInputInfo
| Stat (path : string)                  (* fs::exists and fs::is_regular_file *)
| OpenRead (path : string)              (* std::ifstream input(path, binary) *)
| Empty (shape : list Z) (dtype : DLDataType) (dev : DLDevice) (h : handle)
| ReadAll (path : string)
| CopyFromBytes (h : handle) (nbytes : Z)
| SetInput (name : string) (h : handle)
| LogInfo (msg : string)
| Run
| GetOutput (i : Z)
| GetInput (i : Z)
| GetNumInputs
| GetNumOutputs
| Getenv (name : string)
| CoutFormat (fixed : bool) (precision : Z)   (* std::fixed, std::setprecision *)
| PrintfRow (lo hi : Z)                 (* printf("[%5d - %-5d]: ", lo, hi) *)
| CoutFloat (v : spec_float)            (* std::cout << a float or a double *)
| CoutStr (s : string)
| CoutEndl
| TimeEvaluator (func_name : string) (dev_type dev_id : Z)
                (arg5 arg6 arg7 : Z) (arg8 : string)
                                        (* the call of runtime.RPCTimeEvaluator *)
| CallPacked (args : list (option handle)).   (* time_eval.CallPacked *)

Inductive error :=
| ErrUsage
| ErrInputFormat (arg : string)
| ErrOutOfRange
| ErrNotAFile (path : string)
| ErrMapKey (key : string)
| ErrLengthMismatch (actual expected : Z)
| ErrVerifyDataType (dtype : DLDataType)   (* raised inside NDArray::Empty *)
| ErrCopySize (arr_size nbytes : Z).        (* raised inside CopyFromBytes *)

Record state := mkState {
  trace : list event;
  tensors : list Tensor;
  bound : gmap string handle
}.

Definition initial : state := mkState [] [] ∅.

(** ** The monad: state, with fatal checks *)

Inductive result (A : Type) :=
| Ok (a : A)
| Fatal (e : error).
Arguments Ok {A} a.
Arguments Fatal {A} e.

Definition M (A : Type) : Type := state -> state * result A.

Definition ret {A} (a : A) : M A := fun s => (s, Ok a).

Definition bind {A B} (c : M A) (k : A -> M B) : M B :=
  fun s =>
    match c s with
    | (s', Ok a) => k a s'
    | (s', Fatal e) => (s', Fatal e)
    end.

Definition fail {A} (e : error) : M A := fun s => (s, Fatal e).

Definition emit (e : event) : M unit :=
  fun s => (mkState (trace s ++ [e]) (tensors s) (bound s), Ok tt).

Declare Scope prog_scope.
Delimit Scope prog_scope with prog.
Notation "'let*' x ':=' c 'in' k" := (bind c (fun x => k))
  (at level 10, x pattern, c at level 100, k at level 200) : prog_scope.
Notation "c1 '>>' c2" := (bind c1 (fun _ => c2))
  (at level 100, c2 at level 200, right associativity) : prog_scope.
Open Scope prog_scope.

(** [ICHECK(cond) << ...]: fatal when the condition is false. *)
Definition ICHECK (cond : bool) (e : error) : M unit :=
  if cond then ret tt else fail e.

(** Modelled from the spec: [operator[]] of [tvm::Map], whose header is not
    part of this repository; a missing key fails loudly. *)
Definition Map_at {V} (m : gmap string V) (k : string) : M V :=
  match m !! k with
  | Some v => ret v
  | None => fail (ErrMapKey k)
  end.

(** [NDArray::Empty(shape, dtype, dev)], a call into the library: the
    element type is verified, and a type that does not pass is fatal;
    otherwise a new array is allocated, with nothing in it yet. *)
Definition NDArray_Empty (shape : list Z) (dtype : DLDataType) (dev : DLDevice)
  : M handle :=
  fun s =>
    if VerifyDataType dtype then
      let h := Fresh (length (tensors s)) in
      (mkState (trace s ++ [Empty shape dtype dev h])
               (tensors s ++ [mkTensor shape dtype None])
               (bound s),
       Ok h)
    else (s, Fatal (ErrVerifyDataType dtype)).

(** The array a handle of this program refers to; the slots of the
    executor are not arrays of this program. *)
Definition array_of (s : state) (h : handle) : option Tensor :=
  match h with
  | Fresh n => tensors s !! n
  | _ => None
  end.

Definition write_bytes (data : list Byte.byte) (t : Tensor) : Tensor :=
  mkTensor (t_shape t) (t_dtype t) (Some data).

(** [x.CopyFromBytes(data, nbytes)], a call into the library: the byte
    count must be the byte size of the array, anything else is fatal;
    then the first [nbytes] bytes of the buffer are copied, as they are.
    The program only passes the array it has just allocated; a handle
    that is no array of this program leaves its arrays as they are. *)
Definition NDArray_CopyFromBytes (h : handle) (data : list Byte.byte) (nbytes : Z)
  : M unit :=
  fun s =>
    match h, array_of s h with
    | Fresh n, Some t =>
        let arr_size := GetDataSize (t_shape t) (t_dtype t) in
        if arr_size =? nbytes then
          (mkState (trace s ++ [CopyFromBytes h nbytes])
                   (<[n := write_bytes (take (Z.to_nat nbytes) data) t]> (tensors s))
                   (bound s),
           Ok tt)
        else (s, Fatal (ErrCopySize arr_size nbytes))
    | _, _ =>
        (mkState (trace s ++ [CopyFromBytes h nbytes]) (tensors s) (bound s), Ok tt)
    end.

(** [set_input(name, x)]. *)
Definition set_input (name : string) (h : handle) : M unit :=
  fun s =>
    (mkState (trace s ++ [SetInput name h]) (tensors s) (<[name := h]> (bound s)),
     Ok tt).

(** [std::vector<unsigned char> buffer(std::istreambuf_iterator<char>(input), {})]. *)
Definition read_all (W : World) (path : string) : M (list Byte.byte) :=
  emit (ReadAll path) >> ret (default [] (files W !! path)).

(** ** [inference] *)

Section Program.

Variable W : World.

(** The body of the loop over [input_paths] (lines 48-63); the local
    [dtype_map] is threaded through because [operator[]] may grow it. *)
Definition load_input (dev : DLDevice) (name path : string)
           (dm : gmap string DLDataType) : M (gmap string DLDataType) :=
  emit (Stat path) >>
  ICHECK (bool_decide (is_Some (files W !! path))) (ErrNotAFile path) >>
  let* shape := Map_at (shape_info W) name in
  let* ty := Map_at (dtype_info W) name in
  let (dtype, dm') := umap_index dm ty in
  let input_size := input_size shape dtype in
  emit (OpenRead path) >>
  let* x := NDArray_Empty shape dtype dev in
  let* buffer := read_all W path in
  ICHECK (Z.of_nat (length buffer) =? input_size)
         (ErrLengthMismatch (Z.of_nat (length buffer)) input_size) >>
  NDArray_CopyFromBytes x buffer input_size >>
  set_input name x >>
  ret dm'.

Fixpoint for_each_input (dev : DLDevice) (kvs : list (string * string))
         (dm : gmap string DLDataType) : M (gmap string DLDataType) :=
  match kvs with
  | [] => ret dm
  | (name, path) :: rest =>
      let* dm' := load_input dev name path dm in
      for_each_input dev rest dm'
  end.

(** [for (int j = 0; j < 10 && i * 10 + j < output_num; j++)]; the
    condition bounds the number of rounds by 10. *)
Fixpoint row_values (output_num i j : Z) (rounds : nat) : M unit :=
  match rounds with
  | O => ret tt
  | S rounds' =>
      if (j <? 10) && (to_size_t (to_int (i * 10 + j)) <? output_num)
      then emit (CoutFloat (output_data W (to_int (i * 10 + j)))) >>
           emit (CoutStr ", ") >>
           row_values output_num i (to_int (j + 1)) rounds'
      else ret tt
  end.

Definition print_row (output_num i : Z) : M unit :=
  emit (PrintfRow (to_int (i * 10)) (to_int ((i + 1) * 10 - 1))) >>
  row_values output_num i 0 10 >>
  emit CoutEndl.

(** [for (int i = 0; i < output_num / 10; i++)]: [i] is compared as a
    [size_t].  Counting up from 0 the condition fails at
    [output_num / 10] at the latest, so that many rounds are all there
    are.  ([i++] on [INT_MAX] is undefined in C++; here it wraps, and the
    comparison then ends the loop.) *)
Fixpoint print_rows (output_num i : Z) (rounds : nat) : M unit :=
  match rounds with
  | O => ret tt
  | S rounds' =>
      if to_size_t i <? output_num / 10
      then print_row output_num i >>
           print_rows output_num (to_int (i + 1)) rounds'
      else ret tt
  end.

(** Lines 73-85. *)
Definition print_output : M unit :=
  emit (Getenv "cpp_bench_debug") >>
  if bool_decide (environ W !! "cpp_bench_debug" = Some "ON") then
    let output_num := output_num (output_shape W) in
    emit (CoutFormat true 3) >>
    print_rows output_num 0 (Z.to_nat (output_num / 10))
  else ret tt.

(** The order in which a [std::unordered_map] is traversed is
    unspecified; [map_to_list] is one such order, and the lemmas about the
    loop hold for every list of pairs. *)
Definition inference (input_paths : gmap string string) (dev : DLDevice) : M unit :=
  emit (Call "inference") >>
  emit GetInputInfo >>
  let* _ := for_each_input dev (map_to_list input_paths) dtype_map in
  emit (LogInfo "Running graph executor...") >>
  emit Run >>
  emit (GetOutput 0) >>
  print_output.

(** ** [evaluate] *)

(** [setter(offs, arg)] writes [values[offs]]. *)
Definition setter (values : list (option handle)) (offs : Z) (arg : handle)
  : list (option handle) :=
  <[Z.to_nat offs := Some arg]> values.

Fixpoint gather (slot : Z -> handle) (call : Z -> event) (idx : list Z)
         (values : list (option handle)) (offs : Z)
  : M (list (option handle) * Z) :=
  match idx with
  | [] => ret (values, offs)
  | i :: idx' =>
      emit (call i) >>
      gather slot call idx' (setter values offs (slot i)) (to_int (offs + 1))
  end.

Definition d1000 : spec_float := binary_normalize 53 1024 1000 0 false.

Definition evaluate (dev : DLDevice) : M unit :=
  emit (Call "evaluate") >>
  emit (TimeEvaluator "run" (device_type dev) (device_id dev) 10 1 500 "") >>
  emit GetNumInputs >>
  emit GetNumOutputs >>
  let num_flat_args := to_int (num_inputs W + num_outputs W) in
  let values := replicate (Z.to_nat num_flat_args) None in
  (* for (int i = 0; i < num_inputs; i++) *)
  let* (values, offs) :=
    gather InputSlot GetInput (seqZ 0 (num_inputs W)) values 0 in
  (* for (uint32_t i = 0; i < num_outputs; ++i) *)
  let* (values, offs) :=
    gather OutputSlot GetOutput (seqZ 0 (to_uint32 (num_outputs W))) values offs in
  emit (CallPacked (take (Z.to_nat num_flat_args) values)) >>
  emit (CoutFloat (SFmul 53 1024 (results_arr0 W) d1000)) >>
  emit CoutEndl.

(** ** [DeployGraphExecutor] and [main] *)

(** [Module::LoadFromFile] and the factory call are calls into the
    runtime; they are recorded and taken to return.  A module that cannot
    be loaded ends the program on line 134, which this definition does
    not show. *)
Definition DeployGraphExecutor (module_path : string)
           (input_paths : gmap string string) : M unit :=
  emit (Call "DeployGraphExecutor") >>
  let dev := mkDLDevice kDLCPU 0 in
  emit (LoadFromFile module_path) >>
  emit (CreateExecutor dev) >>
  if bool_decide (input_paths = ∅)
  then evaluate dev
  else inference input_paths dev.

(** The body of the loop over [argv[2..]] (lines 152-155). *)
Definition parse_arg (tmp : string) (input_paths : gmap string string)
  : M (gmap string string) :=
  match string_find ":" tmp with
  | None => fail (ErrInputFormat tmp)          (* ICHECK_NE(center, npos) *)
  | Some center =>
      match substr tmp 0 (Some center), substr tmp (center + 1) None with
      | Some name, Some path => ret (<[name := path]> input_paths)
      | _, _ => fail ErrOutOfRange
      end
  end.

Fixpoint parse_args (args : list string) (input_paths : gmap string string)
  : M (gmap string string) :=
  match args with
  | [] => ret input_paths
  | tmp :: rest =>
      let* input_paths' := parse_arg tmp input_paths in
      parse_args rest input_paths'
  end.

Definition main (argv : list string) : M Z :=
  ICHECK (2 <=? Z.of_nat (length argv)) ErrUsage >>
  let module_path := default "" (argv !! 1%nat) in
  let* input_paths := parse_args (drop 2 argv) ∅ in
  DeployGraphExecutor module_path input_paths >>
  ret 0.

End Program.

(** ** Auxiliary definitions for the statements *)

(** What one argument contributes to the mapping. *)
Definition split_arg (tmp : string) : option (string * string) :=
  match string_find ":" tmp with
  | Some n => Some (str_take n tmp, str_drop (S n) tmp)
  | None => None
  end.

Definition arg_name (tmp : string) : string :=
  match split_arg tmp with Some (name, _) => name | None => tmp end.

Definition insert_arg (m : gmap string string) (tmp : string) : gmap string string :=
  match split_arg tmp with Some (name, path) => <[name := path]> m | None => m end.

(** Whether the events contain a call of the named function. *)
Definition is_call (f : string) (e : event) : bool :=
  match e with Call g => String.eqb f g | _ => false end.

Definition called (f : string) (evs : list event) : bool := existsb (is_call f) evs.

(** The events a computation adds to the trace of its start state. *)
Definition events_of {A} (c : M A) (s : state) : list event :=
  drop (length (trace s)) (trace (fst (c s))).

Definition cpu : DLDevice := mkDLDevice kDLCPU 0.

Definition float32 : DLDataType := mkDLDataType kDLFloat 32 1.
Definition uint8 : DLDataType := mkDLDataType kDLUInt 8 1.

(** A small world for examples: input ["x"] is a 1x3x2x2 [float32], input
    ["m"] a 2x3 [uint8], input ["y"] is declared [int32], input ["big"] is
    a 65536x65536 [uint8]; the output has 23 elements. *)
Definition sample_world : World :=
  mkWorld
    (<["x48.bin" := replicate 48 Byte.x2a]>
       (<["x47.bin" := replicate 47 Byte.x2a]>
          (<["m6.bin" := replicate 6 Byte.x01]>
             (<["empty.bin" := []]> ∅))))
    (<["cpp_bench_debug" := "ON"]> ∅)
    (<["x" := [1; 3; 2; 2]]>
       (<["m" := [2; 3]]> (<["y" := [2; 3]]> (<["big" := [65536; 65536]]> ∅))))
    (<["x" := "float32"]>
       (<["m" := "uint8"]> (<["y" := "int32"]> (<["big" := "uint8"]> ∅))))
    2 1 [23]
    (fun k => binary_normalize 53 1024 k 0 false)
    (binary_normalize 53 1024 5 (-1) false).

(** The state after some more events, tensors and bindings unchanged. *)
Definition add_events (evs : list event) (s : state) : state :=
  mkState (trace s ++ evs) (tensors s) (bound s).

(** The events of one loaded input, up to the length check and after it. *)
Definition load_prefix (dev : DLDevice) (path : string) (shape : list Z)
           (dtype : DLDataType) (h : handle) : list event :=
  [Stat path; OpenRead path; Empty shape dtype dev h; ReadAll path].

Definition load_suffix (name : string) (h : handle) (nbytes : Z) : list event :=
  [CopyFromBytes h nbytes; SetInput name h].

(** A table that grew out of [dtype_map] by lookups of unknown strings. *)
Definition grown_from_table (dm : gmap string DLDataType) : Prop :=
  forall k, dm !! k = dtype_map !! k \/
            (dtype_map !! k = None /\ dm !! k = Some DLDataType_zero).

(** A world with one declared input and one file. *)
Definition one_input_world (name : string) (shape : list Z) (ty : string)
           (path : string) (contents : list Byte.byte) : World :=
  mkWorld {[path := contents]} ∅ {[name := shape]} {[name := ty]}
          1 1 [1] (fun _ => S754_zero false) (S754_zero false).

(** Counting events of one kind. *)
Definition is_timing_call (e : event) : bool :=
  match e with CallPacked _ => true | _ => false end.

Definition is_time_evaluator (e : event) : bool :=
  match e with TimeEvaluator _ _ _ _ _ _ _ => true | _ => false end.

Definition count_events (p : event -> bool) (evs : list event) : nat :=
  length (List.filter p evs).

(** A computation all of whose events satisfy [P], whatever the start
    state and whether or not it fails. *)
Definition only (P : event -> Prop) {A} (c : M A) : Prop :=
  forall s, exists evs, trace (c s).1 = trace s ++ evs /\ Forall P evs.

Definition no_call (f : string) (e : event) : Prop := is_call f e = false.

(** One printed row: the index range, ten values each followed by a
    comma and a blank, and the end of line. *)
Definition row_events (W : World) (i : Z) : list event :=
  PrintfRow (i * 10) ((i + 1) * 10 - 1)
  :: flat_map (fun j => [CoutFloat (output_data W (i * 10 + j)); CoutStr ", "])
              (seqZ 0 10)
  ++ [CoutEndl].

Definition is_value (e : event) : bool :=
  match e with CoutFloat _ => true | _ => false end.

Definition is_row (e : event) : bool :=
  match e with PrintfRow _ _ => true | _ => false end.

(** A world whose output 0 is a 65536x65536 array, with the verbose
    toggle set. *)
Definition big_output_world : World :=
  mkWorld ∅ {["cpp_bench_debug" := "ON"]} ∅ ∅ 1 1 [65536; 65536]
          (fun _ => S754_zero false) (S754_zero false).

(** ** Auxiliary definitions for the properties of whole runs *)

Definition is_ok {A} (r : result A) : bool :=
  match r with Ok _ => true | Fatal _ => false end.

(** What one round of the loop over the inputs can come to. *)
Inductive load_outcome (W : World) (dev : DLDevice) (name path : string)
          (dm : gmap string DLDataType) (s : state)
  : state * result (gmap string DLDataType) -> Prop :=
| load_not_a_file :
    files W !! path = None ->
    load_outcome W dev name path dm s
                 (add_events [Stat path] s, Fatal (ErrNotAFile path))
| load_unknown_name bs :
    files W !! path = Some bs ->
    shape_info W !! name = None \/ dtype_info W !! name = None ->
    load_outcome W dev name path dm s
                 (add_events [Stat path] s, Fatal (ErrMapKey name))
| load_type_refused bs shape ty :
    files W !! path = Some bs ->
    shape_info W !! name = Some shape ->
    dtype_info W !! name = Some ty ->
    VerifyDataType (umap_index dm ty).1 = false ->
    load_outcome W dev name path dm s
      (add_events [Stat path; OpenRead path] s,
       Fatal (ErrVerifyDataType (umap_index dm ty).1))
| load_length_mismatch bs shape ty :
    files W !! path = Some bs ->
    shape_info W !! name = Some shape ->
    dtype_info W !! name = Some ty ->
    VerifyDataType (umap_index dm ty).1 = true ->
    Z.of_nat (length bs) <> input_size shape (umap_index dm ty).1 ->
    load_outcome W dev name path dm s
      (mkState (trace s ++ load_prefix dev path shape (umap_index dm ty).1
                                       (Fresh (length (tensors s))))
               (tensors s ++ [mkTensor shape (umap_index dm ty).1 None])
               (bound s),
       Fatal (ErrLengthMismatch (Z.of_nat (length bs))
                                (input_size shape (umap_index dm ty).1)))
| load_copy_refused bs shape ty :
    files W !! path = Some bs ->
    shape_info W !! name = Some shape ->
    dtype_info W !! name = Some ty ->
    VerifyDataType (umap_index dm ty).1 = true ->
    Z.of_nat (length bs) = input_size shape (umap_index dm ty).1 ->
    GetDataSize shape (umap_index dm ty).1 <> input_size shape (umap_index dm ty).1 ->
    load_outcome W dev name path dm s
      (mkState (trace s ++ load_prefix dev path shape (umap_index dm ty).1
                                       (Fresh (length (tensors s))))
               (tensors s ++ [mkTensor shape (umap_index dm ty).1 None])
               (bound s),
       Fatal (ErrCopySize (GetDataSize shape (umap_index dm ty).1)
                          (input_size shape (umap_index dm ty).1)))
| load_done bs shape ty :
    files W !! path = Some bs ->
    shape_info W !! name = Some shape ->
    dtype_info W !! name = Some ty ->
    VerifyDataType (umap_index dm ty).1 = true ->
    Z.of_nat (length bs) = input_size shape (umap_index dm ty).1 ->
    GetDataSize shape (umap_index dm ty).1 = input_size shape (umap_index dm ty).1 ->
    load_outcome W dev name path dm s
      (mkState (trace s ++ load_prefix dev path shape (umap_index dm ty).1
                                       (Fresh (length (tensors s)))
                        ++ load_suffix name (Fresh (length (tensors s)))
                                       (Z.of_nat (length bs)))
               (tensors s ++ [mkTensor shape (umap_index dm ty).1 (Some bs)])
               (<[name := Fresh (length (tensors s))]> (bound s)),
       Ok (umap_index dm ty).2).

(** Whether a named input passes every check of the loop body: the path
    is a regular file, the name has a shape and a type, the library
    accepts the type, the file has the length the program expects, and
    that length is the byte size of the array. *)
Definition loads (W : World) (kv : string * string) : bool :=
  match files W !! kv.2, shape_info W !! kv.1, dtype_info W !! kv.1 with
  | Some bs, Some shape, Some ty =>
      let dtype := (umap_index dtype_map ty).1 in
      VerifyDataType dtype
      && (Z.of_nat (length bs) =? input_size shape dtype)
      && (GetDataSize shape dtype =? input_size shape dtype)
  | _, _, _ => false
  end.

(** Every binding of the executor refers to an array of this run that has
    been written from end to end: the bytes it holds are as many as the
    byte size of the array. *)
Definition bound_written (s : state) : Prop :=
  forall name h, bound s !! name = Some h ->
                 exists n t bs, h = Fresh n /\ tensors s !! n = Some t /\
                                t_bytes t = Some bs /\
                                Z.of_nat (length bs)
                                = GetDataSize (t_shape t) (t_dtype t).

(** A computation that leaves the arrays and the bindings alone. *)
Definition keeps_store {A} (c : M A) : Prop :=
  forall s, tensors (c s).1 = tensors s /\ bound (c s).1 = bound s.

(** Kinds of events. *)
Definition is_loader_event (e : event) : bool :=
  match e with
  | Stat _ | OpenRead _ | Empty _ _ _ _ | ReadAll _
  | CopyFromBytes _ _ | SetInput _ _ => true
  | _ => false
  end.

Definition is_print_event (e : event) : bool :=
  match e with
  | Getenv _ | CoutFormat _ _ | PrintfRow _ _ | CoutFloat _ | CoutStr _
  | CoutEndl => true
  | _ => false
  end.

Definition is_benchmark_event (e : event) : bool :=
  match e with
  | TimeEvaluator _ _ _ _ _ _ _ | GetNumInputs | GetNumOutputs
  | GetInput _ | GetOutput _ | CallPacked _ | CoutFloat _ | CoutEndl => true
  | _ => false
  end.

(** Whether an event that names a device names the CPU, index 0. *)
Definition uses_cpu (e : event) : bool :=
  match e with
  | Empty _ _ d _ | CreateExecutor d =>
      (device_type d =? kDLCPU) && (device_id d =? 0)
  | TimeEvaluator _ dt di _ _ _ _ => (dt =? kDLCPU) && (di =? 0)
  | _ => true
  end.

(** The numbers written to standard output, in order. *)
Definition printed_values (evs : list event) : list spec_float :=
  omap (fun e => match e with CoutFloat v => Some v | _ => None end) evs.

(** [name:path], the argument that names a pair. *)
Definition join_arg (kv : string * string) : string := kv.1 +:+ String ":" kv.2.


(** Whether an event that names a device names the given one. *)
Definition on_device (dev : DLDevice) (e : event) : Prop :=
  match e with
  | Empty _ _ d _ => d = dev
  | _ => True
  end.



(** * Properties *)

(** ** Integer conversions *)

Section Conversions.

Local Abbreviation two32 := 4294967296.
Local Abbreviation two64 := 18446744073709551616.

Lemma to_int_range x : - 2147483648 <= to_int x <= INT_MAX.
Proof.
  unfold to_int, wrap_signed, INT_MAX. change (2 ^ (32 - 1)) with 2147483648.
  change (2 ^ 32) with two32.
  pose proof (Z.mod_pos_bound (x + 2147483648) two32). lia.
Qed.

Lemma to_int_id x : - 2147483648 <= x <= INT_MAX -> to_int x = x.
Proof.
  unfold to_int, wrap_signed, INT_MAX. change (2 ^ (32 - 1)) with 2147483648.
  change (2 ^ 32) with two32. intros H.
  rewrite Z.mod_small by lia. lia.
Qed.

Lemma to_int_congr a b : a mod two32 = b mod two32 -> to_int a = to_int b.
Proof.
  unfold to_int, wrap_signed. change (2 ^ 32) with two32. intros H.
  rewrite (Zplus_mod a), (Zplus_mod b), H. reflexivity.
Qed.

Lemma to_int_mod32 a : to_int a mod two32 = a mod two32.
Proof.
  unfold to_int, wrap_signed. change (2 ^ (32 - 1)) with 2147483648.
  change (2 ^ 32) with two32.
  rewrite Zminus_mod, Zmod_mod, <- Zminus_mod. f_equal. lia.
Qed.

Lemma to_int_mul_l a b : to_int (to_int a * b) = to_int (a * b).
Proof.
  apply to_int_congr.
  rewrite (Zmult_mod (to_int a)), to_int_mod32, <- Zmult_mod. reflexivity.
Qed.

Lemma to_int_multiplies a d : to_int (multiplies_size_t a d) = to_int (a * d).
Proof.
  apply to_int_congr. unfold multiplies_size_t, to_size_t, wrap_unsigned.
  change (2 ^ 64) with two64.
  assert (Hdiv : (two32 | two64)) by (exists two32; reflexivity).
  rewrite (Z.mod_mod_divide _ _ _ Hdiv).
  rewrite Zmult_mod, !(Z.mod_mod_divide _ _ _ Hdiv), <- Zmult_mod. reflexivity.
Qed.

Lemma to_size_t_id x : 0 <= x < two64 -> to_size_t x = x.
Proof. intros H. unfold to_size_t, wrap_unsigned. apply Z.mod_small. exact H. Qed.

Lemma to_uint32_id x : 0 <= x < two32 -> to_uint32 x = x.
Proof. intros H. unfold to_uint32, wrap_unsigned. apply Z.mod_small. exact H. Qed.

(** The [int] accumulator holds the true product reduced to 32 bits. *)
Lemma accumulate_int_product shape init :
  to_int init = init ->
  accumulate_int shape init = to_int (init * product shape).
Proof.
  revert init. induction shape as [|d shape IH]; intros init Hinit; simpl.
  - rewrite Z.mul_1_r. symmetry. exact Hinit.
  - unfold accumulate_int in *. simpl. rewrite IH.
    + rewrite to_int_multiplies, to_int_mul_l. f_equal. lia.
    + apply to_int_id. apply to_int_range.
Qed.

Lemma output_num_product shape :
  output_num shape = to_size_t (to_int (product shape)).
Proof.
  unfold output_num. rewrite accumulate_int_product by reflexivity.
  rewrite Z.mul_1_l. reflexivity.
Qed.

Lemma input_size_product shape dtype :
  input_size shape dtype = to_size_t (to_int (product shape * (bits dtype / 8))).
Proof.
  unfold input_size. rewrite accumulate_int_product by reflexivity.
  rewrite Z.mul_1_l, to_int_mul_l. reflexivity.
Qed.

(** Below [2^31] bytes, and for a width that is a whole number of
    bytes, the program's expected size is the specification's. *)
Lemma input_size_exact shape dtype :
  bits dtype mod 8 = 0 ->
  0 <= expected_bytes shape dtype <= INT_MAX ->
  input_size shape dtype = expected_bytes shape dtype.
Proof.
  intros Hb. unfold expected_bytes.
  assert (Hbits : bits dtype = 8 * (bits dtype / 8)).
  { apply Z_div_exact_full_2; [lia | exact Hb]. }
  assert (E : product shape * bits dtype / 8 = product shape * (bits dtype / 8)).
  { rewrite Hbits at 1. rewrite (Z.mul_comm 8), Z.mul_assoc.
    apply Z.div_mul. lia. }
  rewrite E. intros Hr. rewrite input_size_product.
  rewrite to_int_id by (unfold INT_MAX in *; lia).
  apply to_size_t_id. unfold INT_MAX in *. lia.
Qed.

Lemma output_num_exact shape :
  0 <= product shape <= INT_MAX -> output_num shape = product shape.
Proof.
  intros Hr. rewrite output_num_product.
  rewrite to_int_id by (unfold INT_MAX in *; lia).
  apply to_size_t_id. unfold INT_MAX in *. lia.
Qed.

Lemma to_size_t_mul_l a b : to_size_t (to_size_t a * b) = to_size_t (a * b).
Proof.
  unfold to_size_t, wrap_unsigned. change (2 ^ 64) with two64.
  rewrite Zmult_mod, Zmod_mod, <- Zmult_mod. reflexivity.
Qed.

Lemma to_size_t_mul_r a b : to_size_t (a * to_size_t b) = to_size_t (a * b).
Proof. rewrite (Z.mul_comm a), to_size_t_mul_l, Z.mul_comm. reflexivity. Qed.

Lemma to_size_t_idemp a : to_size_t (to_size_t a) = to_size_t a.
Proof. unfold to_size_t, wrap_unsigned. apply Zmod_mod. Qed.

(** The library's running product is the true product reduced to 64
    bits. *)
Lemma GetDataSize_fold shape init :
  fold_left (fun size d => to_size_t (size * to_size_t d)) shape (to_size_t init)
  = to_size_t (init * product shape).
Proof.
  revert init. induction shape as [|d shape IH]; intros init.
  - cbn [fold_left product fold_right]. by rewrite Z.mul_1_r.
  - cbn [fold_left product fold_right]. rewrite IH.
    rewrite <- Z.mul_assoc, to_size_t_mul_l.
    rewrite (Z.mul_comm (to_size_t d)), Z.mul_assoc, to_size_t_mul_r.
    f_equal. unfold product. lia.
Qed.

Lemma GetDataSize_product shape dtype :
  GetDataSize shape dtype
  = to_size_t (product shape * ((bits dtype * lanes dtype + 7) / 8)).
Proof.
  unfold GetDataSize. cbv zeta.
  change 1 with (to_size_t 1) at 1. rewrite GetDataSize_fold, Z.mul_1_l.
  by rewrite to_size_t_mul_l, to_size_t_mul_r.
Qed.

Lemma whole_bytes b : b mod 8 = 0 -> (b * 1 + 7) / 8 = b / 8.
Proof.
  intros Hb. rewrite Z.mul_1_r.
  rewrite (Z_div_exact_full_2 b 8) at 1 by lia.
  rewrite Z.mul_comm, Z.div_add_l by lia. change (7 / 8) with 0. lia.
Qed.

(** For a one-lane type whose width is a whole number of bytes and an
    array that fits a [size_t], the library's byte size is the
    specification's product(shape) * bitwidth / 8. *)
Lemma GetDataSize_exact shape dtype :
  lanes dtype = 1 -> bits dtype mod 8 = 0 ->
  0 <= expected_bytes shape dtype < two64 ->
  GetDataSize shape dtype = expected_bytes shape dtype.
Proof.
  intros Hl Hb. unfold expected_bytes.
  assert (Hbits : bits dtype = 8 * (bits dtype / 8)).
  { apply Z_div_exact_full_2; [lia | exact Hb]. }
  assert (E : product shape * bits dtype / 8 = product shape * (bits dtype / 8)).
  { rewrite Hbits at 1. rewrite (Z.mul_comm 8), Z.mul_assoc.
    apply Z.div_mul. lia. }
  rewrite E. intros Hr. rewrite GetDataSize_product, Hl, (whole_bytes _ Hb).
  by apply to_size_t_id.
Qed.

End Conversions.

(** ** Strings and the [name:path] arguments *)

Arguments str_take !n !s /.
Arguments str_drop !n !s /.

Lemma string_find_lt c s n :
  string_find c s = Some n -> (n < String.length s)%nat.
Proof.
  revert n. induction s as [|a s IH]; intros n H; simpl in *; [discriminate|].
  destruct (Ascii.eqb a c).
  - injection H as <-. lia.
  - destruct (string_find c s) as [k|]; simpl in H; [|discriminate].
    injection H as <-. specialize (IH k eq_refl). lia.
Qed.

(** The string is its part before the first [c], then [c], then the rest;
    and nothing before that position is [c]. *)
Lemma string_find_split c s n :
  string_find c s = Some n ->
  s = str_take n s +:+ String c (str_drop (S n) s) /\
  string_find c (str_take n s) = None.
Proof.
  revert n. induction s as [|a s IH]; intros n H; [discriminate|].
  cbn [string_find] in H. destruct (Ascii.eqb a c) eqn:E.
  - injection H as <-. apply Ascii.eqb_eq in E as ->.
    split; [|reflexivity]. destruct s; reflexivity.
  - destruct (string_find c s) as [k|] eqn:F; simpl in H; [|discriminate].
    injection H as <-. destruct (IH k eq_refl) as [IH1 IH2].
    split.
    + change (String a s = String a (str_take k s +:+ String c (str_drop (S k) s))).
      f_equal. exact IH1.
    + change (string_find c (String a (str_take k s)) = None).
      cbn [string_find]. rewrite E, IH2. reflexivity.
Qed.

Lemma string_find_app c name rest :
  string_find c name = None ->
  string_find c (name +:+ String c rest) = Some (String.length name).
Proof.
  induction name as [|a name IH]; simpl; intros H.
  - rewrite Ascii.eqb_refl. reflexivity.
  - destruct (Ascii.eqb a c); [discriminate|].
    destruct (string_find c name); [discriminate|].
    rewrite IH by reflexivity. reflexivity.
Qed.

Lemma str_take_app name rest : str_take (String.length name) (name +:+ rest) = name.
Proof. induction name as [|a name IH]; simpl; [destruct rest; reflexivity | by rewrite IH]. Qed.

Lemma str_drop_app name rest : str_drop (String.length name) (name +:+ rest) = rest.
Proof. induction name as [|a name IH]; simpl; [reflexivity | exact IH]. Qed.

Lemma split_arg_app name path :
  contains_colon name = false ->
  split_arg (name +:+ String ":" path) = Some (name, path).
Proof.
  unfold contains_colon, split_arg. intros H.
  destruct (string_find ":" name) eqn:E; [discriminate|].
  rewrite (string_find_app _ _ _ E).
  rewrite str_take_app.
  f_equal. f_equal.
  clear E H. induction name as [|a name IH]; simpl; [reflexivity | exact IH].
Qed.

(** [parse_arg] never raises [std::out_of_range]: it fails exactly when
    there is no colon, and touches nothing but the mapping. *)
Lemma parse_arg_split tmp input_paths s :
  parse_arg tmp input_paths s =
  match split_arg tmp with
  | Some (name, path) => (s, Ok (<[name := path]> input_paths))
  | None => (s, Fatal (ErrInputFormat tmp))
  end.
Proof.
  unfold parse_arg, split_arg.
  destruct (string_find ":" tmp) as [n|] eqn:E; [|reflexivity].
  pose proof (string_find_lt _ _ _ E) as Hlt. unfold substr.
  replace (String.length tmp <? 0)%nat with false
    by (symmetry; apply Nat.ltb_ge; lia).
  replace (String.length tmp <? n + 1)%nat with false
    by (symmetry; apply Nat.ltb_ge; lia).
  rewrite Nat.add_1_r. destruct tmp; reflexivity.
Qed.

Lemma parse_args_ok args input_paths s :
  forallb contains_colon args = true ->
  parse_args args input_paths s = (s, Ok (fold_left insert_arg args input_paths)).
Proof.
  revert input_paths. induction args as [|tmp args IH]; intros ip H; simpl in *.
  - reflexivity.
  - apply andb_prop in H as [H1 H2]. unfold bind. rewrite parse_arg_split.
    unfold insert_arg at 2. unfold contains_colon, split_arg in *.
    destruct (string_find ":" tmp); [|discriminate]. apply IH, H2.
Qed.

Lemma parse_args_malformed args input_paths s :
  forallb contains_colon args = false ->
  exists bad, bad ∈ args /\ contains_colon bad = false /\
              parse_args args input_paths s = (s, Fatal (ErrInputFormat bad)).
Proof.
  revert input_paths. induction args as [|tmp args IH]; intros ip H; simpl in *.
  - discriminate.
  - unfold bind. rewrite parse_arg_split.
    destruct (contains_colon tmp) eqn:C; simpl in H.
    + unfold contains_colon, split_arg in *.
      destruct (string_find ":" tmp); [|discriminate].
      destruct (IH (<[str_take n tmp := str_drop (S n) tmp]> ip) H)
        as (bad & Hin & Hbad & Hrun).
      exists bad. split; [by constructor|]. split; assumption.
    + exists tmp. split; [by constructor|]. split; [exact C|].
      unfold contains_colon, split_arg in *.
      destruct (string_find ":" tmp); [discriminate | reflexivity].
Qed.

Lemma fold_insert_arg_other args m name :
  forallb (fun t => negb (String.eqb (arg_name t) name)) args = true ->
  fold_left insert_arg args m !! name = m !! name.
Proof.
  revert m. induction args as [|tmp args IH]; intros m H; simpl in *; [reflexivity|].
  apply andb_prop in H as [H1 H2]. rewrite (IH _ H2).
  unfold insert_arg, arg_name in *. destruct (split_arg tmp) as [[n p]|]; [|reflexivity].
  apply negb_true_iff, String.eqb_neq in H1.
  by rewrite lookup_insert_ne.
Qed.

(** C8: an argument after the module path without a colon makes [main]
    fail with the input-format error and an untouched state: nothing was
    recorded, so no file was looked at and no module was loaded.  And an
    argument with a colon is cut at its first colon: the name has none,
    and [name |-> path] enters the mapping. *)
Theorem missing_colon_fatal_before_io :
  (forall (W : World) (argv : list string) (s : state),
      forallb contains_colon (drop 2 argv) = false ->
      exists bad, bad ∈ drop 2 argv /\ contains_colon bad = false /\
                  main W argv s = (s, Fatal (ErrInputFormat bad))) /\
  (forall (tmp : string) (input_paths : gmap string string) (s : state),
      contains_colon tmp = true ->
      exists name path,
        tmp = name +:+ String ":" path /\ contains_colon name = false /\
        parse_arg tmp input_paths s = (s, Ok (<[name := path]> input_paths))).
Proof.
  split.
  - intros W argv s H. unfold main, bind, ICHECK.
    destruct (2 <=? Z.of_nat (length argv)) eqn:Hargc.
    + destruct (parse_args_malformed _ ∅ s H) as (bad & Hin & Hbad & Hrun).
      exists bad. cbn [ret]. rewrite Hrun. auto.
    + apply Z.leb_gt in Hargc.
      destruct argv as [|a0 [|a1 rest]]; simpl in H; try discriminate.
      simpl in Hargc. lia.
  - intros tmp ip s H. rewrite parse_arg_split.
    unfold contains_colon, split_arg in *.
    destruct (string_find ":" tmp) as [n|] eqn:E; [|discriminate].
    destruct (string_find_split _ _ _ E) as [Hsplit Hname].
    exists (str_take n tmp), (str_drop (S n) tmp).
    split; [exact Hsplit|]. split; [by rewrite Hname | reflexivity].
Qed.

Lemma missing_colon_fatal_before_io_witness :
  (exists bad, bad ∈ drop 2 ["prog"; "lib.so"; "x:x48.bin"; "nocolon"] /\
               contains_colon bad = false /\
               main sample_world ["prog"; "lib.so"; "x:x48.bin"; "nocolon"] initial
               = (initial, Fatal (ErrInputFormat bad))) /\
  (exists name path,
      "a:b:c" = name +:+ String ":" path /\ contains_colon name = false /\
      parse_arg "a:b:c" ∅ initial = (initial, Ok (<[name := path]> ∅))).
Proof.
  split.
  - apply (proj1 missing_colon_fatal_before_io). reflexivity.
  - apply (proj2 missing_colon_fatal_before_io). reflexivity.
Defined.

(** C9: when several arguments carry one name, the mapping built by the
    parser holds the path of the last of them, and parsing succeeds. *)
Theorem duplicate_name_last_wins
        (pre post : list string) (name path : string)
        (input_paths : gmap string string) (s : state) :
  forallb contains_colon (pre ++ (name +:+ String ":" path) :: post) = true ->
  contains_colon name = false ->
  forallb (fun t => negb (String.eqb (arg_name t) name)) post = true ->
  exists m,
    parse_args (pre ++ (name +:+ String ":" path) :: post) input_paths s = (s, Ok m) /\
    m !! name = Some path.
Proof.
  intros Hall Hname Hlast. eexists. split; [apply parse_args_ok, Hall|].
  rewrite fold_left_app. cbn [fold_left].
  rewrite (fold_insert_arg_other _ _ _ Hlast).
  unfold insert_arg at 1. rewrite (split_arg_app _ _ Hname).
  apply lookup_insert_eq.
Qed.

Lemma duplicate_name_last_wins_witness :
  exists m,
    parse_args (["x:first.bin"; "y:other.bin"] ++ ("x" +:+ String ":" "last.bin") :: ["z:more.bin"])
               ∅ initial = (initial, Ok m) /\
    m !! "x" = Some "last.bin".
Proof.
  apply (duplicate_name_last_wins ["x:first.bin"; "y:other.bin"] ["z:more.bin"]
                                  "x" "last.bin" ∅ initial);
    reflexivity.
Defined.

(** C10: an argument whose first colon is its first character gets the
    empty name, one whose first colon is its last character gets the
    empty path; neither is an error, and the entry is created. *)
Theorem empty_name_or_path_accepted :
  (forall (path : string) (input_paths : gmap string string) (s : state),
      parse_arg (String ":" path) input_paths s
      = (s, Ok (<["" := path]> input_paths))) /\
  (forall (name : string) (input_paths : gmap string string) (s : state),
      contains_colon name = false ->
      parse_arg (name +:+ ":") input_paths s
      = (s, Ok (<[name := ""]> input_paths))).
Proof.
  split.
  - intros path ip s. rewrite parse_arg_split.
    reflexivity.
  - intros name ip s H. rewrite parse_arg_split.
    rewrite (split_arg_app name "" H). reflexivity.
Qed.

Lemma empty_name_or_path_accepted_witness :
  parse_arg (String ":" "in.bin") ∅ initial = (initial, Ok (<["" := "in.bin"]> ∅)) /\
  parse_arg ("x" +:+ ":") ∅ initial = (initial, Ok (<["x" := ""]> ∅)).
Proof.
  split.
  - apply (proj1 empty_name_or_path_accepted).
  - apply (proj2 empty_name_or_path_accepted). reflexivity.
Defined.

(** ** Traces *)

Lemma add_events_nil s : add_events [] s = s.
Proof. destruct s. unfold add_events. simpl. by rewrite app_nil_r. Qed.

Lemma add_events_app evs1 evs2 s :
  add_events evs2 (add_events evs1 s) = add_events (evs1 ++ evs2) s.
Proof. unfold add_events. simpl. by rewrite app_assoc. Qed.

Lemma emit_run e s : emit e s = (add_events [e] s, Ok tt).
Proof. reflexivity. Qed.

Lemma events_of_add_events {A} (c : M A) evs s r :
  c s = (add_events evs s, r) -> events_of c s = evs.
Proof.
  intros H. unfold events_of. rewrite H. simpl. by rewrite drop_app_length.
Qed.

(** ** The tensor loader *)

Section Loader.

Variable W : World.
Variables (dev : DLDevice) (name path : string).
Variable dm : gmap string DLDataType.
Variable s : state.

Lemma load_input_not_a_file :
  files W !! path = None ->
  load_input W dev name path dm s = (add_events [Stat path] s, Fatal (ErrNotAFile path)).
Proof.
  intros H. unfold load_input, bind, ICHECK. rewrite emit_run, H.
  rewrite bool_decide_eq_false_2; [reflexivity|]. by intros [? ?].
Qed.

Lemma load_input_unknown_name bs :
  files W !! path = Some bs ->
  shape_info W !! name = None \/ dtype_info W !! name = None ->
  load_input W dev name path dm s = (add_events [Stat path] s, Fatal (ErrMapKey name)).
Proof.
  intros Hf H. unfold load_input, bind, ICHECK, Map_at. rewrite emit_run, Hf.
  rewrite bool_decide_eq_true_2 by eauto. cbn [ret fail].
  destruct (shape_info W !! name); [|reflexivity].
  destruct H as [H|H]; [discriminate|]. rewrite H. reflexivity.
Qed.

(** With the file and both descriptor entries present, the loop body
    goes on to the allocation.  It ends there when the library refuses
    the element type; at the length check when the buffer has not the
    size the program computed; in [CopyFromBytes] when that size is not
    the byte size of the array; and otherwise the array is filled and
    bound. *)
Lemma load_input_run bs shape ty :
  files W !! path = Some bs ->
  shape_info W !! name = Some shape ->
  dtype_info W !! name = Some ty ->
  let dtype := (umap_index dm ty).1 in
  let n := input_size shape dtype in
  let h := Fresh (length (tensors s)) in
  load_input W dev name path dm s =
  if negb (VerifyDataType dtype) then
    (add_events [Stat path; OpenRead path] s, Fatal (ErrVerifyDataType dtype))
  else if negb (Z.of_nat (length bs) =? n) then
    (mkState (trace s ++ load_prefix dev path shape dtype h)
             (tensors s ++ [mkTensor shape dtype None])
             (bound s),
     Fatal (ErrLengthMismatch (Z.of_nat (length bs)) n))
  else if negb (GetDataSize shape dtype =? n) then
    (mkState (trace s ++ load_prefix dev path shape dtype h)
             (tensors s ++ [mkTensor shape dtype None])
             (bound s),
     Fatal (ErrCopySize (GetDataSize shape dtype) n))
  else
    (mkState (trace s ++ load_prefix dev path shape dtype h ++ load_suffix name h n)
             (tensors s ++ [mkTensor shape dtype (Some (take (Z.to_nat n) bs))])
             (<[name := h]> (bound s)),
     Ok (umap_index dm ty).2).
Proof.
  intros Hf Hs Ht dtype n h. subst dtype n h. unfold load_input.
  cbv [bind ICHECK Map_at read_all emit ret fail NDArray_Empty
       NDArray_CopyFromBytes set_input array_of].
  cbn [trace tensors bound]. rewrite Hf, Hs, Ht.
  rewrite bool_decide_eq_true_2 by eauto.
  destruct (umap_index dm ty) as [dt dm'] eqn:E.
  cbn [fst snd default trace tensors bound]. change (id bs) with bs.
  destruct (VerifyDataType dt); cbn [negb trace tensors bound].
  2:{ unfold add_events. cbn [trace tensors bound].
      rewrite <- !app_assoc. reflexivity. }
  destruct (Z.of_nat (length bs) =? input_size shape dt); cbn [negb trace tensors bound].
  2:{ unfold load_prefix. rewrite <- !app_assoc. reflexivity. }
  rewrite lookup_app_r by lia. rewrite Nat.sub_diag.
  cbn [lookup list_lookup t_shape t_dtype].
  destruct (GetDataSize shape dt =? input_size shape dt); cbn [negb trace tensors bound].
  - rewrite insert_app_r_alt by lia. rewrite Nat.sub_diag.
    unfold load_prefix, load_suffix.
    rewrite <- !app_assoc. reflexivity.
  - unfold load_prefix. rewrite <- !app_assoc. reflexivity.
Qed.

End Loader.

(** ** The element-type table *)

Lemma dtype_map_unknown ty : ty ∉ supported_dtypes -> dtype_map !! ty = None.
Proof. intros H. apply not_elem_of_list_to_map_1. exact H. Qed.

Lemma dtype_map_widths :
  map (fun ty => dtype_map !! ty) supported_dtypes =
  [Some (mkDLDataType kDLFloat 32 1); Some (mkDLDataType kDLFloat 16 1);
   Some (mkDLDataType kDLInt 8 1);    Some (mkDLDataType kDLUInt 8 1);
   Some (mkDLDataType kDLInt 16 1);   Some (mkDLDataType kDLUInt 16 1)].
Proof. vm_compute. reflexivity. Qed.

Lemma grown_from_table_initial : grown_from_table dtype_map.
Proof. intros k. by left. Qed.

Lemma umap_index_grown dm ty :
  grown_from_table dm -> grown_from_table (umap_index dm ty).2.
Proof.
  intros H k. unfold umap_index. destruct (dm !! ty) eqn:E; [apply H|].
  cbn [snd]. destruct (decide (ty = k)) as [->|Hne].
  - rewrite lookup_insert_eq. right. split; [|reflexivity].
    destruct (H k) as [Hk|[Hk _]]; congruence.
  - rewrite lookup_insert_ne by exact Hne. apply H.
Qed.

(** The lookup never fails, and an unknown string yields the zero triple,
    also after earlier lookups have grown the table. *)
Lemma umap_index_unknown dm ty :
  grown_from_table dm -> ty ∉ supported_dtypes ->
  (umap_index dm ty).1 = DLDataType_zero.
Proof.
  intros H Hty. unfold umap_index. pose proof (dtype_map_unknown _ Hty) as Hn.
  destruct (H ty) as [Hk|[_ Hk]]; rewrite Hk; [by rewrite Hn | reflexivity].
Qed.

Lemma umap_index_known dm ty d :
  grown_from_table dm -> dtype_map !! ty = Some d -> umap_index dm ty = (d, dm).
Proof.
  intros H Hd. unfold umap_index.
  destruct (H ty) as [Hk|[Hk _]]; [by rewrite Hk, Hd | congruence].
Qed.

Lemma input_size_zero_width shape : input_size shape DLDataType_zero = 0.
Proof.
  rewrite input_size_product. cbn [bits DLDataType_zero].
  change (0 / 8) with 0. rewrite Z.mul_0_r. reflexivity.
Qed.

(** Every entry of the table has one lane and a width of whole bytes. *)
Lemma dtype_map_entry ty d :
  dtype_map !! ty = Some d -> lanes d = 1 /\ bits d mod 8 = 0.
Proof.
  intros H. unfold dtype_map in H. apply elem_of_list_to_map_2 in H.
  repeat (apply elem_of_cons in H as [H|H];
          [injection H as _ ->; split; reflexivity|]).
  by apply elem_of_nil in H.
Qed.

(** What a grown table yields is an entry of the table, which the library
    accepts, or the zero triple, which it refuses. *)
Lemma verified_dtype dm ty :
  grown_from_table dm -> VerifyDataType (umap_index dm ty).1 = true ->
  exists d, dtype_map !! ty = Some d /\ umap_index dm ty = (d, dm) /\
            lanes d = 1 /\ bits d mod 8 = 0.
Proof.
  intros Hg Hv. destruct (dtype_map !! ty) as [d|] eqn:E.
  - exists d. rewrite (umap_index_known dm ty d Hg E).
    destruct (dtype_map_entry ty d E). auto.
  - exfalso. unfold umap_index in Hv.
    destruct (Hg ty) as [Hk|[_ Hk]]; rewrite Hk in Hv; [rewrite E in Hv|]; discriminate.
Qed.


(** Taking a run of the loop body apart along its checks. *)
Ltac run_cases H :=
  cbv zeta in H;
  repeat match type of H with
         | context [if negb ?b then _ else _] =>
             destruct b eqn:?; cbn [negb] in H; try discriminate
         end.

Lemma load_input_grown W dev name path dm s s' dm' :
  grown_from_table dm ->
  load_input W dev name path dm s = (s', Ok dm') ->
  grown_from_table dm'.
Proof.
  intros Hg Hrun.
  destruct (files W !! path) as [bs|] eqn:Hf;
    [|rewrite load_input_not_a_file in Hrun by exact Hf; discriminate].
  destruct (shape_info W !! name) as [shape|] eqn:Hs;
    [|rewrite (load_input_unknown_name _ _ _ _ _ _ bs) in Hrun by auto; discriminate].
  destruct (dtype_info W !! name) as [ty|] eqn:Ht;
    [|rewrite (load_input_unknown_name _ _ _ _ _ _ bs) in Hrun by auto; discriminate].
  rewrite (load_input_run _ _ _ _ _ _ _ _ _ Hf Hs Ht) in Hrun. run_cases Hrun.
  injection Hrun as _ <-. by apply umap_index_grown.
Qed.

(** The table only grows by zero entries in the course of the loop. *)
Lemma for_each_input_grown W dev kvs dm s s' dm' :
  grown_from_table dm ->
  for_each_input W dev kvs dm s = (s', Ok dm') ->
  grown_from_table dm'.
Proof.
  revert dm s. induction kvs as [|[name path] kvs IH]; intros dm s Hg Hrun.
  - injection Hrun as _ <-. exact Hg.
  - cbn [for_each_input] in Hrun. unfold bind in Hrun.
    destruct (load_input W dev name path dm s) as [s1 [dm1|e]] eqn:E; [|discriminate].
    apply (IH dm1 s1); [|exact Hrun]. exact (load_input_grown _ _ _ _ _ _ _ _ Hg E).
Qed.

Lemma umap_index_entered dm ty :
  (umap_index dm ty).2 !! ty = Some (umap_index dm ty).1.
Proof.
  unfold umap_index. destruct (dm !! ty) eqn:E; cbn [fst snd]; [exact E|].
  apply lookup_insert_eq.
Qed.

(** C1, as the program has it: a declared element type outside the table is
    not rejected by the program.  The lookup yields the zero triple (code
    0, width 0, lanes 0) and leaves it in the table under the type
    string; the expected byte length, computed with width 0, is 0, and
    the loader goes on to open the file and to call [NDArray::Empty] with
    that triple.  The load ends there, in the library's check of the
    type, which the zero triple does not pass, with nothing allocated,
    read, copied or bound.  The six listed strings have their entries,
    each with one lane. *)
Theorem unknown_dtype_gets_zero_width
        (W : World) (dev : DLDevice) (name path : string)
        (dm : gmap string DLDataType) (s : state)
        (bs : list Byte.byte) (shape : list Z) (ty : string) :
  grown_from_table dm ->
  files W !! path = Some bs ->
  shape_info W !! name = Some shape ->
  dtype_info W !! name = Some ty ->
  ty ∉ supported_dtypes ->
  (umap_index dm ty).1 = DLDataType_zero /\
  (umap_index dm ty).2 !! ty = Some DLDataType_zero /\
  VerifyDataType DLDataType_zero = false /\
  input_size shape (umap_index dm ty).1 = 0 /\
  map (fun t => dtype_map !! t) supported_dtypes
  = [Some (mkDLDataType kDLFloat 32 1); Some (mkDLDataType kDLFloat 16 1);
     Some (mkDLDataType kDLInt 8 1);    Some (mkDLDataType kDLUInt 8 1);
     Some (mkDLDataType kDLInt 16 1);   Some (mkDLDataType kDLUInt 16 1)] /\
  load_input W dev name path dm s =
  (mkState (trace s ++ [Stat path; OpenRead path]) (tensors s) (bound s),
   Fatal (ErrVerifyDataType DLDataType_zero)).
Proof.
  intros Hg Hf Hs Ht Hty.
  pose proof (umap_index_unknown dm ty Hg Hty) as Hz.
  split; [exact Hz|].
  split; [rewrite <- Hz; apply umap_index_entered|].
  split; [reflexivity|].
  split; [rewrite Hz; apply input_size_zero_width|].
  split; [exact dtype_map_widths|].
  rewrite (load_input_run _ _ _ _ _ _ _ _ _ Hf Hs Ht). cbv zeta.
  rewrite Hz. reflexivity.
Qed.

Lemma unknown_dtype_gets_zero_width_witness :
  (umap_index dtype_map "int32").1 = DLDataType_zero /\
  (umap_index dtype_map "int32").2 !! "int32" = Some DLDataType_zero /\
  VerifyDataType DLDataType_zero = false /\
  input_size [2; 3] (umap_index dtype_map "int32").1 = 0 /\
  map (fun t => dtype_map !! t) supported_dtypes
  = [Some (mkDLDataType kDLFloat 32 1); Some (mkDLDataType kDLFloat 16 1);
     Some (mkDLDataType kDLInt 8 1);    Some (mkDLDataType kDLUInt 8 1);
     Some (mkDLDataType kDLInt 16 1);   Some (mkDLDataType kDLUInt 16 1)] /\
  load_input sample_world cpu "y" "m6.bin" dtype_map initial =
  (mkState (trace initial ++ [Stat "m6.bin"; OpenRead "m6.bin"])
           (tensors initial) (bound initial),
   Fatal (ErrVerifyDataType DLDataType_zero)).
Proof.
  apply (unknown_dtype_gets_zero_width sample_world cpu "y" "m6.bin"
                                       dtype_map initial (replicate 6 Byte.x01)
                                       [2; 3] "int32").
  - exact grown_from_table_initial.
  - reflexivity.
  - reflexivity.
  - reflexivity.
  - refine (bool_decide_unpack _ _). vm_compute. exact I.
Defined.

(** The claim as stated fails: input ["y"] is declared [int32], which the
    table does not hold.  The table rejects nothing: the lookup returns
    the zero triple and enters it under ["int32"].  The loader goes on
    with width 0, computes 0 as the expected length, opens the file, and
    fails only inside [NDArray::Empty], on the triple and not on the type
    string. *)
Lemma unknown_dtype_not_rejected :
  ("int32" ∉ supported_dtypes) /\
  dtype_info sample_world !! "y" = Some "int32" /\
  umap_index dtype_map "int32"
  = (DLDataType_zero, <["int32" := DLDataType_zero]> dtype_map) /\
  input_size [2; 3] DLDataType_zero = 0 /\
  load_input sample_world cpu "y" "empty.bin" dtype_map initial =
  (mkState [Stat "empty.bin"; OpenRead "empty.bin"] [] ∅,
   Fatal (ErrVerifyDataType DLDataType_zero)).
Proof.
  split; [refine (bool_decide_unpack _ _); vm_compute; exact I|].
  repeat split; vm_compute; reflexivity.
Qed.

(** C2, as the program has it: the path check and the two descriptor
    lookups come before the allocation, the byte-length check comes after
    it.  A load that fails has bound nothing.  When it fails before or in
    the allocation, no tensor has come into being; when it fails at the
    length check, or after it in [CopyFromBytes], the new tensor exists,
    with nothing copied into it. *)
Theorem length_check_follows_allocation
        (W : World) (dev : DLDevice) (name path : string)
        (dm : gmap string DLDataType) (s s' : state) (e : error) :
  load_input W dev name path dm s = (s', Fatal e) ->
  bound s' = bound s /\
  ((tensors s' = tensors s /\ trace s' = trace s ++ [Stat path] /\
    (e = ErrNotAFile path \/ e = ErrMapKey name))
   \/
   (exists dtype,
       e = ErrVerifyDataType dtype /\ VerifyDataType dtype = false /\
       tensors s' = tensors s /\
       trace s' = trace s ++ [Stat path; OpenRead path])
   \/
   (exists shape dtype actual expected,
       (e = ErrLengthMismatch actual expected \/ e = ErrCopySize actual expected) /\
       actual <> expected /\
       tensors s' = tensors s ++ [mkTensor shape dtype None] /\
       trace s' = trace s ++ load_prefix dev path shape dtype
                                         (Fresh (length (tensors s))))).
Proof.
  intros Hrun.
  destruct (files W !! path) as [bs|] eqn:Hf.
  2:{ rewrite load_input_not_a_file in Hrun by exact Hf.
      injection Hrun as <- <-. split; [reflexivity|]. left. auto. }
  destruct (shape_info W !! name) as [shape|] eqn:Hs.
  2:{ rewrite (load_input_unknown_name _ _ _ _ _ _ bs) in Hrun by auto.
      injection Hrun as <- <-. split; [reflexivity|]. left. auto. }
  destruct (dtype_info W !! name) as [ty|] eqn:Ht.
  2:{ rewrite (load_input_unknown_name _ _ _ _ _ _ bs) in Hrun by auto.
      injection Hrun as <- <-. split; [reflexivity|]. left. auto. }
  rewrite (load_input_run _ _ _ _ _ _ _ _ _ Hf Hs Ht) in Hrun. cbv zeta in Hrun.
  destruct (VerifyDataType (umap_index dm ty).1) eqn:Hv; cbn [negb] in Hrun.
  2:{ injection Hrun as <- <-. split; [reflexivity|]. right. left.
      exists (umap_index dm ty).1. auto. }
  destruct (Z.of_nat (length bs) =? _) eqn:Hlen; cbn [negb] in Hrun.
  2:{ apply Z.eqb_neq in Hlen. injection Hrun as <- <-.
      split; [reflexivity|]. right. right.
      exists shape, (umap_index dm ty).1, (Z.of_nat (length bs)),
             (input_size shape (umap_index dm ty).1).
      auto. }
  destruct (GetDataSize shape (umap_index dm ty).1 =? _) eqn:Hsize;
    cbn [negb] in Hrun; [discriminate|].
  apply Z.eqb_neq in Hsize. injection Hrun as <- <-.
  split; [reflexivity|]. right. right.
  exists shape, (umap_index dm ty).1, (GetDataSize shape (umap_index dm ty).1),
         (input_size shape (umap_index dm ty).1).
  auto.
Qed.

Lemma length_check_follows_allocation_witness :
  bound (load_input sample_world cpu "x" "x47.bin" dtype_map initial).1 = bound initial /\
  ((tensors (load_input sample_world cpu "x" "x47.bin" dtype_map initial).1
    = tensors initial /\
    trace (load_input sample_world cpu "x" "x47.bin" dtype_map initial).1
    = trace initial ++ [Stat "x47.bin"] /\
    (ErrLengthMismatch 47 48 = ErrNotAFile "x47.bin" \/
     ErrLengthMismatch 47 48 = ErrMapKey "x"))
   \/
   (exists dtype,
       ErrLengthMismatch 47 48 = ErrVerifyDataType dtype /\
       VerifyDataType dtype = false /\
       tensors (load_input sample_world cpu "x" "x47.bin" dtype_map initial).1
       = tensors initial /\
       trace (load_input sample_world cpu "x" "x47.bin" dtype_map initial).1
       = trace initial ++ [Stat "x47.bin"; OpenRead "x47.bin"])
   \/
   (exists shape dtype actual expected,
       (ErrLengthMismatch 47 48 = ErrLengthMismatch actual expected \/
        ErrLengthMismatch 47 48 = ErrCopySize actual expected) /\
       actual <> expected /\
       tensors (load_input sample_world cpu "x" "x47.bin" dtype_map initial).1
       = tensors initial ++ [mkTensor shape dtype None] /\
       trace (load_input sample_world cpu "x" "x47.bin" dtype_map initial).1
       = trace initial ++ load_prefix cpu "x47.bin" shape dtype
                                      (Fresh (length (tensors initial))))).
Proof.
  apply (length_check_follows_allocation sample_world cpu "x" "x47.bin" dtype_map
                                         initial _ (ErrLengthMismatch 47 48)).
  vm_compute. reflexivity.
Defined.

(** The claim as stated fails: a 47-byte file for the 48-byte input ["x"]
    is refused by the length check, and at that point the tensor has
    already been allocated. *)
Lemma allocation_precedes_length_check :
  load_input sample_world cpu "x" "x47.bin" dtype_map initial =
  (mkState [Stat "x47.bin"; OpenRead "x47.bin";
            Empty [1; 3; 2; 2] float32 cpu (Fresh 0); ReadAll "x47.bin"]
           [mkTensor [1; 3; 2; 2] float32 None]
           ∅,
   Fatal (ErrLengthMismatch 47 48)) /\
  tensors (load_input sample_world cpu "x" "x47.bin" dtype_map initial).1
  <> tensors initial.
Proof.
  split; [vm_compute; reflexivity|]. vm_compute. discriminate.
Qed.

(** C3: a file whose length is not product(shape) * bitwidth / 8 is never
    copied into a tensor and never bound.  The load ends fatally: in the
    allocation when the type is unknown, at the length check of line 59
    when the length is not the size the program computed, and otherwise,
    when the program's size has wrapped and the file has that wrapped
    length, inside [CopyFromBytes], which refuses a byte count that is
    not the byte size of the array.  The declared array is one that fits
    a [size_t]. *)
Theorem wrong_length_never_bound
        (W : World) (dev : DLDevice) (name path : string)
        (dm : gmap string DLDataType) (s : state)
        (bs : list Byte.byte) (shape : list Z) (ty : string) :
  grown_from_table dm ->
  files W !! path = Some bs ->
  shape_info W !! name = Some shape ->
  dtype_info W !! name = Some ty ->
  0 <= expected_bytes shape (umap_index dm ty).1 < 2 ^ 64 ->
  Z.of_nat (length bs) <> expected_bytes shape (umap_index dm ty).1 ->
  exists s' e,
    load_input W dev name path dm s = (s', Fatal e) /\
    bound s' = bound s /\
    ((e = ErrVerifyDataType (umap_index dm ty).1 /\
      tensors s' = tensors s /\
      trace s' = trace s ++ [Stat path; OpenRead path])
     \/
     ((e = ErrLengthMismatch (Z.of_nat (length bs))
                             (input_size shape (umap_index dm ty).1) \/
       e = ErrCopySize (expected_bytes shape (umap_index dm ty).1)
                       (input_size shape (umap_index dm ty).1)) /\
      tensors s' = tensors s ++ [mkTensor shape (umap_index dm ty).1 None] /\
      trace s' = trace s ++ load_prefix dev path shape (umap_index dm ty).1
                                        (Fresh (length (tensors s))))).
Proof.
  intros Hg Hf Hs Ht Hr Hlen.
  rewrite (load_input_run _ _ _ _ _ _ _ _ _ Hf Hs Ht). cbv zeta.
  destruct (VerifyDataType (umap_index dm ty).1) eqn:Hv; cbn [negb].
  2:{ eexists _, _. split; [reflexivity|]. split; [reflexivity|]. left. auto. }
  destruct (verified_dtype dm ty Hg Hv) as (d & _ & Hd & Hl & Hb).
  rewrite Hd in *. cbn [fst] in *.
  pose proof (GetDataSize_exact shape d Hl Hb Hr) as Hsize.
  destruct (Z.of_nat (length bs) =? input_size shape d) eqn:E; cbn [negb].
  2:{ eexists _, _. split; [reflexivity|]. split; [reflexivity|]. right. auto. }
  apply Z.eqb_eq in E.
  destruct (GetDataSize shape d =? input_size shape d) eqn:E2; cbn [negb].
  - apply Z.eqb_eq in E2. congruence.
  - eexists _, _. split; [reflexivity|]. split; [reflexivity|]. right.
    rewrite Hsize. auto.
Qed.

Lemma wrong_length_never_bound_witness :
  exists s' e,
    load_input sample_world cpu "big" "empty.bin" dtype_map initial = (s', Fatal e) /\
    bound s' = bound initial /\
    ((e = ErrVerifyDataType (umap_index dtype_map "uint8").1 /\
      tensors s' = tensors initial /\
      trace s' = trace initial ++ [Stat "empty.bin"; OpenRead "empty.bin"])
     \/
     ((e = ErrLengthMismatch (Z.of_nat (length (@nil Byte.byte)))
                             (input_size [65536; 65536] (umap_index dtype_map "uint8").1) \/
       e = ErrCopySize (expected_bytes [65536; 65536] (umap_index dtype_map "uint8").1)
                       (input_size [65536; 65536] (umap_index dtype_map "uint8").1)) /\
      tensors s' = tensors initial
                   ++ [mkTensor [65536; 65536] (umap_index dtype_map "uint8").1 None] /\
      trace s' = trace initial
                 ++ load_prefix cpu "empty.bin" [65536; 65536]
                                (umap_index dtype_map "uint8").1
                                (Fresh (length (tensors initial))))).
Proof.
  apply (wrong_length_never_bound sample_world cpu "big" "empty.bin" dtype_map initial
                                  [] [65536; 65536] "uint8").
  - exact grown_from_table_initial.
  - reflexivity.
  - reflexivity.
  - reflexivity.
  - vm_compute. split; [discriminate | reflexivity].
  - vm_compute. discriminate.
Defined.

(** Where the size has wrapped: input ["big"] is declared 65536x65536
    [uint8], 4294967296 bytes; the [int] accumulator wraps to 0, so an
    empty file passes the length check of the program, and it is the
    library that stops the load, in [CopyFromBytes], with the array
    allocated and nothing copied or bound. *)
Example wrapped_size_stopped_by_library :
  expected_bytes [65536; 65536] uint8 = 4294967296 /\
  input_size [65536; 65536] uint8 = 0 /\
  GetDataSize [65536; 65536] uint8 = 4294967296 /\
  files sample_world !! "empty.bin" = Some [] /\
  load_input sample_world cpu "big" "empty.bin" dtype_map initial =
  (mkState [Stat "empty.bin"; OpenRead "empty.bin";
            Empty [65536; 65536] uint8 cpu (Fresh 0); ReadAll "empty.bin"]
           [mkTensor [65536; 65536] uint8 None]
           ∅,
   Fatal (ErrCopySize 4294967296 0)).
Proof. repeat split; vm_compute; reflexivity. Qed.

(** C4, at the failing input: for the same declared input no file is
    loaded, whatever it holds.  A file of exactly 4294967296 bytes, which
    agrees with the declared shape and type, is refused by the length
    check with [ErrLengthMismatch 4294967296 0], as is every other
    non-empty file; an empty file, the only one the program's check lets
    through, is refused by the library. *)
Theorem matching_file_refused_after_wrap (bs : list Byte.byte) :
  expected_bytes [65536; 65536] uint8 = 4294967296 /\
  (load_input (one_input_world "big" [65536; 65536] "uint8" "in.bin" bs)
              cpu "big" "in.bin" dtype_map initial).2
  = if Z.of_nat (length bs) =? 0 then Fatal (ErrCopySize 4294967296 0)
    else Fatal (ErrLengthMismatch (Z.of_nat (length bs)) 0).
Proof.
  split; [reflexivity|].
  rewrite (load_input_run _ _ _ _ _ _ bs [65536; 65536] "uint8");
    [|apply lookup_singleton_eq..].
  cbv zeta. change (umap_index dtype_map "uint8") with (uint8, dtype_map).
  cbn [fst snd]. change (input_size [65536; 65536] uint8) with 0.
  change (VerifyDataType uint8) with true.
  change (GetDataSize [65536; 65536] uint8) with 4294967296.
  destruct (Z.of_nat (length bs) =? 0); reflexivity.
Qed.

(** Where the library accepts the type, the length agrees with what the
    program expects and that is the byte size of the array, the tensor
    holds the bytes of the file, all of them and in order. *)
Lemma loaded_bytes_equal_file W dev name path dm s bs shape ty :
  files W !! path = Some bs ->
  shape_info W !! name = Some shape ->
  dtype_info W !! name = Some ty ->
  let dtype := (umap_index dm ty).1 in
  let h := Fresh (length (tensors s)) in
  VerifyDataType dtype = true ->
  Z.of_nat (length bs) = input_size shape dtype ->
  GetDataSize shape dtype = input_size shape dtype ->
  load_input W dev name path dm s =
  (mkState (trace s ++ load_prefix dev path shape dtype h
                    ++ load_suffix name h (Z.of_nat (length bs)))
           (tensors s ++ [mkTensor shape dtype (Some bs)])
           (<[name := h]> (bound s)),
   Ok (umap_index dm ty).2).
Proof.
  intros Hf Hs Ht dtype h Hv Hlen Hsize.
  rewrite (load_input_run _ _ _ _ _ _ _ _ _ Hf Hs Ht). cbv zeta.
  fold dtype. rewrite Hv, Hsize, <- Hlen, !Z.eqb_refl, Nat2Z.id, firstn_all.
  reflexivity.
Qed.

(** Below [2^31] bytes the program's expected length is the
    specification's and the library's, so there a file of one of the
    table's types loads exactly when its length is
    product(shape) * bitwidth / 8. *)
Lemma load_input_in_range W dev name path dm s bs shape ty :
  files W !! path = Some bs ->
  shape_info W !! name = Some shape ->
  dtype_info W !! name = Some ty ->
  let dtype := (umap_index dm ty).1 in
  let h := Fresh (length (tensors s)) in
  lanes dtype = 1 ->
  bits dtype mod 8 = 0 ->
  0 <= expected_bytes shape dtype <= INT_MAX ->
  load_input W dev name path dm s =
  if Z.of_nat (length bs) =? expected_bytes shape dtype then
    (mkState (trace s ++ load_prefix dev path shape dtype h
                      ++ load_suffix name h (Z.of_nat (length bs)))
             (tensors s ++ [mkTensor shape dtype (Some bs)])
             (<[name := h]> (bound s)),
     Ok (umap_index dm ty).2)
  else
    (mkState (trace s ++ load_prefix dev path shape dtype h)
             (tensors s ++ [mkTensor shape dtype None])
             (bound s),
     Fatal (ErrLengthMismatch (Z.of_nat (length bs)) (expected_bytes shape dtype))).
Proof.
  intros Hf Hs Ht dtype h Hl Hb Hr.
  pose proof (input_size_exact shape dtype Hb Hr) as Hsize.
  assert (Hdata : GetDataSize shape dtype = expected_bytes shape dtype).
  { apply GetDataSize_exact; [exact Hl | exact Hb | unfold INT_MAX in Hr; lia]. }
  assert (Hv : VerifyDataType dtype = true).
  { unfold VerifyDataType. by rewrite Hl. }
  destruct (Z.of_nat (length bs) =? expected_bytes shape dtype) eqn:Hlen.
  - apply Z.eqb_eq in Hlen. apply loaded_bytes_equal_file; try assumption.
    + fold dtype. congruence.
    + fold dtype. congruence.
  - rewrite (load_input_run _ _ _ _ _ _ _ _ _ Hf Hs Ht). cbv zeta.
    fold dtype. rewrite Hv, Hsize, Hlen. reflexivity.
Qed.

(** The scenario of the specification: input ["x"], 1x3x2x2 [float32],
    loads from a file of exactly 48 bytes. *)
Example load_x_48_bytes :
  load_input sample_world cpu "x" "x48.bin" dtype_map initial =
  (mkState [Stat "x48.bin"; OpenRead "x48.bin";
            Empty [1; 3; 2; 2] float32 cpu (Fresh 0); ReadAll "x48.bin";
            CopyFromBytes (Fresh 0) 48; SetInput "x" (Fresh 0)]
           [mkTensor [1; 3; 2; 2] float32 (Some (replicate 48 Byte.x2a))]
           {["x" := Fresh 0]},
   Ok dtype_map).
Proof. vm_compute. reflexivity. Qed.

(** ** The benchmark path *)

Lemma gather_run slot call idx pre (m : nat) s :
  (length idx <= m)%nat ->
  Z.of_nat (length pre + length idx) <= INT_MAX ->
  gather slot call idx (pre ++ replicate m None) (Z.of_nat (length pre)) s =
  (add_events (map call idx) s,
   Ok (pre ++ map (fun i => Some (slot i)) idx ++ replicate (m - length idx) None,
       Z.of_nat (length pre + length idx))).
Proof.
  revert pre m s. induction idx as [|i idx IH]; intros pre m s Hm Hmax.
  - cbn [gather map length ret]. rewrite add_events_nil, Nat.add_0_r, Nat.sub_0_r.
    reflexivity.
  - cbn [gather length map] in *. unfold bind. rewrite emit_run.
    destruct m as [|m]; [lia|].
    unfold setter. rewrite Nat2Z.id.
    rewrite <- (Nat.add_0_r (length pre)) at 1. rewrite insert_app_r.
    cbn [replicate]. change (<[0%nat:=Some (slot i)]> (None :: replicate m None))
      with ([Some (slot i)] ++ replicate m None).
    rewrite app_assoc.
    replace (to_int (Z.of_nat (length pre) + 1))
      with (Z.of_nat (length (pre ++ [Some (slot i)]))).
    2:{ rewrite length_app. cbn [length]. rewrite to_int_id; unfold INT_MAX in *; lia. }
    rewrite IH.
    + rewrite add_events_app. rewrite length_app. cbn [length].
      rewrite <- !app_assoc. cbn [app].
      replace (S m - S (length idx))%nat with (m - length idx)%nat by lia.
      replace (length pre + 1 + length idx)%nat
        with (length pre + S (length idx))%nat by lia.
      reflexivity.
    + lia.
    + rewrite length_app. cbn [length]. lia.
Qed.

Lemma count_events_app p evs1 evs2 :
  count_events p (evs1 ++ evs2) = (count_events p evs1 + count_events p evs2)%nat.
Proof. unfold count_events. by rewrite List.filter_app, length_app. Qed.

Lemma count_events_map_none {A} p (f : A -> event) (l : list A) :
  (forall a, p (f a) = false) -> count_events p (map f l) = 0%nat.
Proof.
  intros H. unfold count_events. induction l as [|a l IH]; simpl; [reflexivity|].
  by rewrite H.
Qed.

(** C6: [evaluate] asks the runtime for the time evaluator once, with
    [10, 1, 500] as its fifth to seventh arguments (after the function
    name ["run"] and the device), calls it once, with the handles of all
    input slots followed by those of all output slots, and prints the
    first double of the result times 1000: the binary64 product of that
    double and the double 1000, which is 8796093022208000 * 2^-43. *)
Theorem benchmark_protocol (W : World) (dev : DLDevice) (s : state) :
  0 <= num_inputs W -> 0 <= num_outputs W ->
  num_inputs W + num_outputs W <= INT_MAX ->
  let args := map (fun i => Some (InputSlot i)) (seqZ 0 (num_inputs W))
              ++ map (fun i => Some (OutputSlot i)) (seqZ 0 (num_outputs W)) in
  let evs := [Call "evaluate";
              TimeEvaluator "run" (device_type dev) (device_id dev) 10 1 500 "";
              GetNumInputs; GetNumOutputs]
             ++ map GetInput (seqZ 0 (num_inputs W))
             ++ map GetOutput (seqZ 0 (num_outputs W))
             ++ [CallPacked args;
                 CoutFloat (SFmul 53 1024 (results_arr0 W)
                                  (binary_normalize 53 1024 1000 0 false));
                 CoutEndl] in
  evaluate W dev s = (add_events evs s, Ok tt) /\
  count_events is_time_evaluator evs = 1%nat /\
  count_events is_timing_call evs = 1%nat /\
  binary_normalize 53 1024 1000 0 false = S754_finite false 8796093022208000 (-43).
Proof.
  intros Hi Ho Hsum args evs.
  refine ((fun H => conj (proj1 H) (conj (proj1 (proj2 H))
                     (conj (proj2 (proj2 H)) eq_refl))) _).
  split.
  - unfold evaluate, bind. rewrite !emit_run.
    rewrite to_int_id by (unfold INT_MAX in *; lia).
    rewrite to_uint32_id by (unfold INT_MAX in *; lia).
    pose proof (gather_run InputSlot GetInput (seqZ 0 (num_inputs W)) []
                  (Z.to_nat (num_inputs W + num_outputs W))) as G1.
    cbn [app length] in G1. rewrite G1; clear G1;
      [|rewrite length_seqZ; lia|rewrite length_seqZ; unfold INT_MAX in *; lia].
    cbn [Nat.add].
    pose proof (gather_run OutputSlot GetOutput (seqZ 0 (num_outputs W))
                  (map (fun i => Some (InputSlot i)) (seqZ 0 (num_inputs W)))
                  (Z.to_nat (num_inputs W + num_outputs W)
                   - length (seqZ 0 (num_inputs W)))) as G2.
    rewrite length_map in G2. rewrite G2; clear G2;
      [|rewrite !length_seqZ; lia|rewrite !length_seqZ; unfold INT_MAX in *; lia].
    rewrite !emit_run, !add_events_app. rewrite !length_seqZ.
    replace (Z.to_nat (num_inputs W + num_outputs W) - Z.to_nat (num_inputs W)
             - Z.to_nat (num_outputs W))%nat with 0%nat by lia.
    cbn [replicate]. rewrite app_nil_r.
    rewrite firstn_all2 by (rewrite length_app, !length_map, !length_seqZ; lia).
    subst evs args. rewrite <- ?app_assoc. reflexivity.
  - subst evs. rewrite !count_events_app.
    rewrite !count_events_map_none by reflexivity. split; reflexivity.
Qed.

(** In [sample_world] the evaluator reports 2.5 seconds, and 2500 is
    printed. *)
Lemma benchmark_protocol_witness :
  results_arr0 sample_world = binary_normalize 53 1024 5 (-1) false /\
  evaluate sample_world cpu initial =
  (add_events [Call "evaluate"; TimeEvaluator "run" 1 0 10 1 500 "";
               GetNumInputs; GetNumOutputs; GetInput 0; GetInput 1; GetOutput 0;
               CallPacked [Some (InputSlot 0); Some (InputSlot 1); Some (OutputSlot 0)];
               CoutFloat (binary_normalize 53 1024 2500 0 false);
               CoutEndl] initial,
   Ok tt).
Proof.
  split; [reflexivity|].
  exact (proj1 (benchmark_protocol sample_world cpu initial
                  ltac:(vm_compute; discriminate) ltac:(vm_compute; discriminate)
                  ltac:(vm_compute; discriminate))).
Defined.

(** ** Which events a function can produce *)

Section Only.

Variable P : event -> Prop.

Lemma only_ret {A} (a : A) : only P (ret a).
Proof. intros s. exists []. by rewrite app_nil_r. Qed.

Lemma only_fail {A} e : only P (@fail A e).
Proof. intros s. exists []. by rewrite app_nil_r. Qed.

Lemma only_emit e : P e -> only P (emit e).
Proof. intros H s. exists [e]. split; [reflexivity | by constructor]. Qed.

Lemma only_bind {A B} (c : M A) (k : A -> M B) :
  only P c -> (forall a, only P (k a)) -> only P (bind c k).
Proof.
  intros Hc Hk s. unfold bind. destruct (Hc s) as (evs1 & E1 & F1).
  destruct (c s) as [s1 [a|e]]; cbn [fst] in *.
  - destruct (Hk a s1) as (evs2 & E2 & F2). exists (evs1 ++ evs2).
    rewrite E2, E1, app_assoc. split; [reflexivity | by apply Forall_app].
  - exists evs1. auto.
Qed.

Lemma only_ICHECK cond e : only P (ICHECK cond e).
Proof. destruct cond; [apply only_ret | apply only_fail]. Qed.

Lemma only_Map_at {V} (m : gmap string V) k : only P (Map_at m k).
Proof. unfold Map_at. destruct (m !! k); [apply only_ret | apply only_fail]. Qed.

Hypothesis runtime_events : forall e, is_call "evaluate" e = false ->
                                      is_call "inference" e = false -> P e.

Lemma only_NDArray_Empty shape dtype dev : only P (NDArray_Empty shape dtype dev).
Proof.
  intros s. unfold NDArray_Empty. destruct (VerifyDataType dtype).
  - eexists. split; [reflexivity|]. constructor; [|constructor].
    by apply runtime_events.
  - exists []. by rewrite app_nil_r.
Qed.

Lemma only_CopyFromBytes h data n : only P (NDArray_CopyFromBytes h data n).
Proof.
  intros s. unfold NDArray_CopyFromBytes.
  assert (Hev : Forall P [CopyFromBytes h n]).
  { constructor; [|constructor]. by apply runtime_events. }
  destruct h as [i|i|k]; try (eexists; split; [reflexivity | exact Hev]).
  destruct (array_of s (Fresh k)) as [t|];
    [|eexists; split; [reflexivity | exact Hev]].
  cbv zeta. destruct (_ =? _).
  - eexists. split; [reflexivity | exact Hev].
  - exists []. by rewrite app_nil_r.
Qed.

Lemma only_set_input name h : only P (set_input name h).
Proof.
  intros s. eexists. split; [reflexivity|]. constructor; [|constructor].
  by apply runtime_events.
Qed.

Ltac only_step :=
  first [ apply only_bind; [|intros ?]
        | apply only_emit; apply runtime_events; reflexivity
        | apply only_ICHECK | apply only_Map_at | apply only_ret | apply only_fail
        | apply only_NDArray_Empty | apply only_CopyFromBytes | apply only_set_input ].

Lemma only_load_input W dev name path dm : only P (load_input W dev name path dm).
Proof.
  unfold load_input, read_all. repeat only_step.
  destruct (umap_index dm _). repeat only_step.
Qed.

Lemma only_for_each_input W dev kvs dm : only P (for_each_input W dev kvs dm).
Proof.
  revert dm. induction kvs as [|[name path] kvs IH]; intros dm; cbn [for_each_input].
  - apply only_ret.
  - apply only_bind; [apply only_load_input | intros dm'; apply IH].
Qed.

Lemma only_row_values W n i j rounds : only P (row_values W n i j rounds).
Proof.
  revert j. induction rounds as [|rounds IH]; intros j; cbn [row_values].
  - apply only_ret.
  - destruct (_ && _); [|apply only_ret]. repeat only_step. apply IH.
Qed.

Lemma only_print_rows W n i rounds : only P (print_rows W n i rounds).
Proof.
  revert i. induction rounds as [|rounds IH]; intros i; cbn [print_rows].
  - apply only_ret.
  - destruct (_ <? _); [|apply only_ret]. unfold print_row.
    apply only_bind; [|intros ?; apply IH].
    repeat only_step. apply only_row_values.
Qed.

Lemma only_print_output W : only P (print_output W).
Proof.
  unfold print_output. repeat only_step. destruct (bool_decide _); [|apply only_ret].
  repeat only_step. apply only_print_rows.
Qed.

Lemma only_gather slot call idx values offs :
  (forall i, P (call i)) -> only P (gather slot call idx values offs).
Proof.
  intros Hcall. revert values offs.
  induction idx as [|i idx IH]; intros values offs; cbn [gather].
  - apply only_ret.
  - apply only_bind; [by apply only_emit | intros ?; apply IH].
Qed.

End Only.

Lemma only_after_emit P {A} e (k : M A) s :
  only P k ->
  exists evs, trace (bind (emit e) (fun _ => k) s).1 = trace s ++ e :: evs /\
              Forall P evs.
Proof.
  intros H. unfold bind. rewrite emit_run.
  destruct (H (add_events [e] s)) as (evs & E & F). exists evs.
  rewrite E. cbn [add_events trace]. by rewrite <- app_assoc.
Qed.

(** [inference] announces itself and never enters [evaluate]. *)
Lemma inference_events W input_paths dev s :
  exists evs,
    trace (inference W input_paths dev s).1 = trace s ++ Call "inference" :: evs /\
    Forall (no_call "evaluate") evs.
Proof.
  apply only_after_emit.
  assert (R : forall e, is_call "evaluate" e = false ->
                        is_call "inference" e = false -> no_call "evaluate" e)
    by (intros e H _; exact H).
  apply only_bind; [by apply only_emit|intros _].
  apply only_bind; [by apply only_for_each_input|intros _].
  apply only_bind; [by apply only_emit|intros _].
  apply only_bind; [by apply only_emit|intros _].
  apply only_bind; [by apply only_emit|intros _].
  by apply only_print_output.
Qed.

(** [evaluate] announces itself and never enters [inference]. *)
Lemma evaluate_events W dev s :
  exists evs,
    trace (evaluate W dev s).1 = trace s ++ Call "evaluate" :: evs /\
    Forall (no_call "inference") evs.
Proof.
  apply only_after_emit.
  apply only_bind; [by apply only_emit|intros _].
  apply only_bind; [by apply only_emit|intros _].
  apply only_bind; [by apply only_emit|intros _].
  apply only_bind; [by apply only_gather|intros [values offs]].
  apply only_bind; [by apply only_gather|intros [values' offs']].
  apply only_bind; [by apply only_emit|intros _].
  apply only_bind; [by apply only_emit|intros _].
  by apply only_emit.
Qed.

Lemma called_no_call f evs : Forall (no_call f) evs -> called f evs = false.
Proof.
  induction 1 as [|e evs He _ IH]; [reflexivity|].
  unfold called in *. cbn [existsb]. by rewrite He, IH.
Qed.

(** ** From [main] to the dispatch *)

Lemma main_parsed W argv s :
  2 <= Z.of_nat (length argv) ->
  forallb contains_colon (drop 2 argv) = true ->
  main W argv s =
  bind (DeployGraphExecutor W (default "" (argv !! 1%nat))
                            (fold_left insert_arg (drop 2 argv) ∅))
       (fun _ => ret 0) s.
Proof.
  intros Hargc Hall. unfold main. unfold bind at 1, ICHECK.
  replace (2 <=? Z.of_nat (length argv)) with true by (symmetry; apply Z.leb_le; lia).
  cbn [ret]. unfold bind at 1. rewrite (parse_args_ok _ _ _ Hall). reflexivity.
Qed.

(** The mapping is empty exactly when there is no argument after the
    module path. *)
Lemma parsed_mapping_nonempty args m :
  forallb contains_colon args = true ->
  m <> ∅ \/ args <> [] ->
  fold_left insert_arg args m <> ∅.
Proof.
  revert m. induction args as [|tmp args IH]; intros m Hall Hne; cbn [fold_left].
  - destruct Hne; [assumption | congruence].
  - cbn [forallb] in Hall. apply andb_prop in Hall as [H1 H2].
    apply IH; [exact H2|]. left. unfold insert_arg, contains_colon, split_arg in *.
    destruct (string_find ":" tmp); [|discriminate]. apply insert_non_empty.
Qed.

(** The trace of [DeployGraphExecutor]: the module is loaded, the
    executor created, then one of the two functions is entered, and what
    follows never enters the other. *)
Lemma deploy_trace W module_path input_paths s :
  let taken := if bool_decide (input_paths = ∅) then "evaluate" else "inference" in
  let other := if bool_decide (input_paths = ∅) then "inference" else "evaluate" in
  exists evs,
    trace (DeployGraphExecutor W module_path input_paths s).1
    = trace s ++ [Call "DeployGraphExecutor"; LoadFromFile module_path;
                  CreateExecutor cpu; Call taken] ++ evs /\
    Forall (no_call other) evs.
Proof.
  unfold DeployGraphExecutor, bind. rewrite !emit_run, !add_events_app. cbn [app].
  set (s0 := add_events _ s).
  destruct (bool_decide (input_paths = ∅)).
  - destruct (evaluate_events W (mkDLDevice kDLCPU 0) s0) as (evs & E & F).
    exists evs. rewrite E. subst s0. cbn [add_events trace].
    rewrite <- app_assoc. auto.
  - destruct (inference_events W input_paths (mkDLDevice kDLCPU 0) s0) as (evs & E & F).
    exists evs. rewrite E. subst s0. cbn [add_events trace].
    rewrite <- app_assoc. auto.
Qed.

(** C5: [DeployGraphExecutor] enters [evaluate] exactly when the mapping
    is empty and [inference] exactly when it is not; in each run one of
    the two is entered and the other is not. *)
Theorem dispatch_on_empty_mapping
        (W : World) (module_path : string)
        (input_paths : gmap string string) (s : state) :
  let evs := events_of (DeployGraphExecutor W module_path input_paths) s in
  called "evaluate" evs = bool_decide (input_paths = ∅) /\
  called "inference" evs = negb (bool_decide (input_paths = ∅)).
Proof.
  destruct (deploy_trace W module_path input_paths s) as (evs & E & F).
  unfold events_of. rewrite E, drop_app_length. clear E.
  unfold called. rewrite !existsb_app.
  destruct (bool_decide (input_paths = ∅));
    cbn [existsb is_call String.eqb Ascii.eqb Bool.eqb orb negb];
    rewrite (called_no_call _ _ F : existsb _ evs = false);
    split; reflexivity.
Qed.

(** Seen from [main]: with well-formed arguments, [evaluate] is entered
    exactly when nothing follows the module path. *)
Lemma main_dispatch W argv s :
  2 <= Z.of_nat (length argv) ->
  forallb contains_colon (drop 2 argv) = true ->
  let evs := events_of (main W argv) s in
  called "evaluate" evs = bool_decide (drop 2 argv = []) /\
  called "inference" evs = negb (bool_decide (drop 2 argv = [])).
Proof.
  intros Hargc Hall evs. subst evs. unfold events_of.
  rewrite (main_parsed W argv s Hargc Hall).
  set (input_paths := fold_left insert_arg (drop 2 argv) ∅).
  set (module_path := default "" (argv !! 1%nat)).
  assert (Hemp : bool_decide (input_paths = ∅) = bool_decide (drop 2 argv = [])).
  { apply bool_decide_ext. subst input_paths. split.
    - intros H. destruct (drop 2 argv) as [|a l] eqn:D; [reflexivity|].
      exfalso. revert H. apply parsed_mapping_nonempty; [exact Hall | by right].
    - intros ->. reflexivity. }
  destruct (deploy_trace W module_path input_paths s) as (evs & E & F).
  unfold bind.
  destruct (DeployGraphExecutor W module_path input_paths s) as [s1 [[]|e]];
    cbn [fst ret] in *; rewrite E, drop_app_length; clear E;
    unfold called; rewrite !existsb_app; rewrite <- Hemp;
    destruct (bool_decide (input_paths = ∅));
    cbn [existsb is_call String.eqb Ascii.eqb Bool.eqb orb negb];
    rewrite (called_no_call _ _ F : existsb _ evs = false);
    split; reflexivity.
Qed.

Example benchmark_without_inputs :
  main sample_world ["prog"; "lib.so"] initial =
  (add_events [Call "DeployGraphExecutor"; LoadFromFile "lib.so"; CreateExecutor cpu;
               Call "evaluate"; TimeEvaluator "run" 1 0 10 1 500 "";
               GetNumInputs; GetNumOutputs; GetInput 0; GetInput 1; GetOutput 0;
               CallPacked [Some (InputSlot 0); Some (InputSlot 1); Some (OutputSlot 0)];
               CoutFloat (binary_normalize 53 1024 2500 0 false); CoutEndl] initial,
   Ok 0).
Proof. vm_compute. reflexivity. Qed.

(** ** The verbose output *)

Lemma seqZ_cons_succ m (n : nat) : seqZ m (Z.of_nat (S n)) = m :: seqZ (m + 1) (Z.of_nat n).
Proof.
  rewrite seqZ_cons by lia. f_equal. f_equal; lia.
Qed.

Lemma row_values_run W N i j rounds s :
  0 <= i -> 0 <= j -> j + Z.of_nat rounds = 10 ->
  i * 10 + 9 < N -> N <= INT_MAX ->
  row_values W N i j rounds s =
  (add_events (flat_map (fun j => [CoutFloat (output_data W (i * 10 + j)); CoutStr ", "])
                        (seqZ j (Z.of_nat rounds))) s,
   Ok tt).
Proof.
  intros Hi. revert j s. induction rounds as [|rounds IH]; intros j s Hj Hr HN Hmax.
  - cbn [row_values ret]. change (Z.of_nat 0) with 0. rewrite seqZ_nil by lia.
    cbn [flat_map]. by rewrite add_events_nil.
  - cbn [row_values]. unfold INT_MAX in *.
    rewrite (to_int_id (i * 10 + j)) by (unfold INT_MAX; lia).
    rewrite to_size_t_id by lia.
    replace (j <? 10) with true by (symmetry; apply Z.ltb_lt; lia).
    replace (i * 10 + j <? N) with true by (symmetry; apply Z.ltb_lt; lia).
    cbn [andb]. unfold bind. rewrite !emit_run.
    rewrite to_int_id by (unfold INT_MAX; lia).
    rewrite IH by (unfold INT_MAX; lia).
    rewrite !add_events_app, seqZ_cons_succ. reflexivity.
Qed.

Lemma print_rows_run W N q rounds i s :
  q = N / 10 -> 10 * q <= N -> N <= INT_MAX ->
  0 <= i -> i + Z.of_nat rounds = q ->
  print_rows W N i rounds s =
  (add_events (flat_map (row_events W) (seqZ i (Z.of_nat rounds))) s, Ok tt).
Proof.
  intros Hq Hle Hmax. revert i s. induction rounds as [|rounds IH]; intros i s Hi Hr.
  - cbn [print_rows ret]. change (Z.of_nat 0) with 0. rewrite seqZ_nil by lia.
    cbn [flat_map]. by rewrite add_events_nil.
  - cbn [print_rows]. unfold INT_MAX in *. rewrite <- Hq.
    rewrite to_size_t_id by lia.
    replace (i <? q) with true by (symmetry; apply Z.ltb_lt; lia).
    unfold print_row, bind. rewrite !emit_run.
    rewrite (row_values_run W N i 0 10) by (unfold INT_MAX; lia).
    rewrite !emit_run.
    rewrite !to_int_id by (unfold INT_MAX; lia).
    rewrite IH by lia.
    change (Z.of_nat 10) with 10.
    rewrite !add_events_app, (seqZ_cons_succ i rounds). cbn [flat_map].
    unfold row_events at 1. cbn [app]. rewrite <- ?app_assoc. reflexivity.
Qed.

(** Up to [INT_MAX] elements, with the toggle set to ["ON"]: the format is
    set to fixed with precision 3, and the rows [0 .. N/10 - 1] are
    printed, ten values each; the last [N mod 10] elements are not. *)
Lemma print_output_in_range W s :
  environ W !! "cpp_bench_debug" = Some "ON" ->
  0 <= product (output_shape W) <= INT_MAX ->
  print_output W s =
  (add_events (Getenv "cpp_bench_debug" :: CoutFormat true 3
               :: flat_map (row_events W) (seqZ 0 (product (output_shape W) / 10))) s,
   Ok tt).
Proof.
  intros Henv HN. unfold print_output, bind. rewrite emit_run.
  rewrite bool_decide_eq_true_2 by exact Henv. rewrite emit_run.
  rewrite (output_num_exact _ HN).
  set (N := product (output_shape W)) in *.
  assert (Hq : 0 <= N / 10) by (apply Z.div_pos; lia).
  assert (Hle : 10 * (N / 10) <= N) by (apply Z.mul_div_le; lia).
  rewrite (print_rows_run W N (N / 10)); try lia.
  rewrite !add_events_app, Z2Nat.id by lia. reflexivity.
Qed.

(** Any other value of the toggle, or none, prints nothing. *)
Lemma print_output_off W s :
  environ W !! "cpp_bench_debug" <> Some "ON" ->
  print_output W s = (add_events [Getenv "cpp_bench_debug"] s, Ok tt).
Proof.
  intros Henv. unfold print_output, bind. rewrite emit_run.
  by rewrite bool_decide_eq_false_2.
Qed.

(** The scenario of the specification: 23 elements, two rows, twenty
    values. *)
Example verbose_23_elements :
  product (output_shape sample_world) = 23 /\
  events_of (print_output sample_world) initial =
  Getenv "cpp_bench_debug" :: CoutFormat true 3
  :: row_events sample_world 0 ++ row_events sample_world 1 /\
  count_events is_row (events_of (print_output sample_world) initial) = 2%nat /\
  count_events is_value (events_of (print_output sample_world) initial) = 20%nat.
Proof. repeat split; vm_compute; reflexivity. Qed.

(** C7, at the failing input: for an output of 65536x65536 elements the
    [int] accumulator wraps to 0, so [output_num] is 0 and no row is
    printed, where [N / 10] is 429496729. *)
Theorem wrapped_count_prints_no_row :
  environ big_output_world !! "cpp_bench_debug" = Some "ON" /\
  product (output_shape big_output_world) = 4294967296 /\
  product (output_shape big_output_world) / 10 = 429496729 /\
  output_num (output_shape big_output_world) = 0 /\
  print_output big_output_world initial =
  (add_events [Getenv "cpp_bench_debug"; CoutFormat true 3] initial, Ok tt).
Proof. repeat split; vm_compute; reflexivity. Qed.

Lemma count_row_events W p l :
  (forall i, count_events p (row_events W i) = count_events p (row_events W 0)) ->
  count_events p (flat_map (row_events W) l)
  = (length l * count_events p (row_events W 0))%nat.
Proof.
  intros H. induction l as [|i l IH]; [reflexivity|].
  cbn [flat_map length]. rewrite count_events_app, IH, H. lia.
Qed.

(** In numbers: [N / 10] rows and [10 * (N / 10)] values. *)
Lemma print_output_counts W s :
  environ W !! "cpp_bench_debug" = Some "ON" ->
  0 <= product (output_shape W) <= INT_MAX ->
  let evs := events_of (print_output W) s in
  Z.of_nat (count_events is_row evs) = product (output_shape W) / 10 /\
  Z.of_nat (count_events is_value evs) = 10 * (product (output_shape W) / 10).
Proof.
  intros Henv HN evs. subst evs.
  rewrite (events_of_add_events _ _ _ _ (print_output_in_range W s Henv HN)).
  assert (Hq : 0 <= product (output_shape W) / 10) by (apply Z.div_pos; lia).
  change (Getenv "cpp_bench_debug" :: CoutFormat true 3 :: ?l)
    with ([Getenv "cpp_bench_debug"; CoutFormat true 3] ++ l).
  rewrite !count_events_app, !count_row_events by (intros i; vm_compute; reflexivity).
  rewrite length_seqZ.
  change (count_events is_row [Getenv "cpp_bench_debug"; CoutFormat true 3]) with 0%nat.
  change (count_events is_value [Getenv "cpp_bench_debug"; CoutFormat true 3]) with 0%nat.
  replace (count_events is_row (row_events W 0)) with 1%nat by (vm_compute; reflexivity).
  replace (count_events is_value (row_events W 0)) with 10%nat by (vm_compute; reflexivity).
  lia.
Qed.

(** * Properties of whole runs *)

(** ** The loop over the inputs *)

Lemma load_input_outcome W dev name path dm s :
  load_outcome W dev name path dm s (load_input W dev name path dm s).
Proof.
  destruct (files W !! path) as [bs|] eqn:Hf.
  2:{ rewrite load_input_not_a_file by exact Hf. by constructor. }
  destruct (shape_info W !! name) as [shape|] eqn:Hs.
  2:{ rewrite (load_input_unknown_name _ _ _ _ _ _ bs) by auto.
      apply (load_unknown_name _ _ _ _ _ _ bs); auto. }
  destruct (dtype_info W !! name) as [ty|] eqn:Ht.
  2:{ rewrite (load_input_unknown_name _ _ _ _ _ _ bs) by auto.
      apply (load_unknown_name _ _ _ _ _ _ bs); auto. }
  destruct (VerifyDataType (umap_index dm ty).1) eqn:Hv.
  2:{ rewrite (load_input_run _ _ _ _ _ _ _ _ _ Hf Hs Ht). cbv zeta.
      rewrite Hv. cbn [negb]. by apply (load_type_refused _ _ _ _ _ _ bs shape ty). }
  destruct (Z.eq_dec (Z.of_nat (length bs))
                     (input_size shape (umap_index dm ty).1)) as [Hlen|Hlen].
  2:{ rewrite (load_input_run _ _ _ _ _ _ _ _ _ Hf Hs Ht). cbv zeta.
      apply Z.eqb_neq in Hlen as Hlen'. rewrite Hv, Hlen'. cbn [negb].
      by apply load_length_mismatch. }
  destruct (Z.eq_dec (GetDataSize shape (umap_index dm ty).1)
                     (input_size shape (umap_index dm ty).1)) as [Hsize|Hsize].
  - rewrite (loaded_bytes_equal_file _ _ _ _ _ _ _ _ _ Hf Hs Ht Hv Hlen Hsize).
    by apply load_done.
  - rewrite (load_input_run _ _ _ _ _ _ _ _ _ Hf Hs Ht). cbv zeta.
    apply Z.eqb_neq in Hsize as Hsize'. apply Z.eqb_eq in Hlen as Hlen'.
    rewrite Hv, Hsize', Hlen'. cbn [negb].
    by apply (load_copy_refused _ _ _ _ _ _ bs).
Qed.

Lemma umap_index_fst_grown dm ty :
  grown_from_table dm -> (umap_index dm ty).1 = (umap_index dtype_map ty).1.
Proof.
  intros H. unfold umap_index.
  destruct (H ty) as [E|[E1 E2]]; [|by rewrite E1, E2].
  rewrite E. by destruct (dtype_map !! ty).
Qed.

Lemma load_input_ok W dev name path dm s :
  grown_from_table dm ->
  is_ok (load_input W dev name path dm s).2 = loads W (name, path).
Proof.
  intros Hg. unfold loads. cbn [fst snd].
  destruct (load_input_outcome W dev name path dm s)
    as [Hf|bs Hf Hn|bs shape ty Hf Hs Ht Hv|bs shape ty Hf Hs Ht Hv Hlen
        |bs shape ty Hf Hs Ht Hv Hlen Hsize|bs shape ty Hf Hs Ht Hv Hlen Hsize];
    cbn [snd is_ok]; rewrite Hf.
  - reflexivity.
  - destruct Hn as [Hn|Hn]; rewrite Hn; [reflexivity|].
    by destruct (shape_info W !! name).
  - rewrite Hs, Ht. cbv zeta. by rewrite <- (umap_index_fst_grown dm ty Hg), Hv.
  - rewrite Hs, Ht. cbv zeta. rewrite <- (umap_index_fst_grown dm ty Hg), Hv.
    apply Z.eqb_neq in Hlen. by rewrite Hlen.
  - rewrite Hs, Ht. cbv zeta. rewrite <- (umap_index_fst_grown dm ty Hg), Hv.
    apply Z.eqb_neq in Hsize. by rewrite Hlen, Z.eqb_refl, Hsize.
  - rewrite Hs, Ht. cbv zeta. rewrite <- (umap_index_fst_grown dm ty Hg), Hv.
    by rewrite Hsize, Hlen, !Z.eqb_refl.
Qed.

Lemma for_each_input_ok W dev kvs dm s :
  grown_from_table dm ->
  is_ok (for_each_input W dev kvs dm s).2 = forallb (loads W) kvs.
Proof.
  revert dm s. induction kvs as [|[name path] kvs IH]; intros dm s Hg.
  - reflexivity.
  - cbn [for_each_input forallb]. unfold bind.
    rewrite <- (load_input_ok W dev name path dm s Hg).
    destruct (load_input W dev name path dm s) as [s1 [dm1|e]] eqn:E;
      cbn [snd is_ok andb]; [|reflexivity].
    apply IH. exact (load_input_grown _ _ _ _ _ _ _ _ Hg E).
Qed.

Lemma for_each_input_app W dev l1 l2 dm s :
  for_each_input W dev (l1 ++ l2) dm s
  = bind (for_each_input W dev l1 dm) (for_each_input W dev l2) s.
Proof.
  revert dm s. induction l1 as [|[name path] l1 IH]; intros dm s.
  - reflexivity.
  - cbn [app for_each_input]. unfold bind.
    destruct (load_input W dev name path dm s) as [s1 [dm1|e]]; [|reflexivity].
    rewrite IH. reflexivity.
Qed.


(** X2: once an input fails, the inputs after it are not looked at: the
    outcome, state and error, is that of the loop over the inputs up to
    and including the failing one. *)
Theorem failure_stops_loop
        (W : World) (dev : DLDevice) (l1 l2 : list (string * string)) (s : state) :
  forallb (loads W) l1 = false ->
  for_each_input W dev (l1 ++ l2) dtype_map s
  = for_each_input W dev l1 dtype_map s.
Proof.
  intros Hfail. rewrite for_each_input_app. unfold bind.
  pose proof (for_each_input_ok W dev l1 dtype_map s grown_from_table_initial) as Hok.
  rewrite Hfail in Hok.
  destruct (for_each_input W dev l1 dtype_map s) as [s1 [dm1|e]];
    [discriminate | reflexivity].
Qed.

Lemma failure_stops_loop_witness :
  for_each_input sample_world cpu
                 ([("x", "x47.bin")] ++ [("y", "empty.bin"); ("big", "empty.bin")])
                 dtype_map initial
  = for_each_input sample_world cpu [("x", "x47.bin")] dtype_map initial.
Proof.
  apply (failure_stops_loop sample_world cpu [("x", "x47.bin")]
                            [("y", "empty.bin"); ("big", "empty.bin")] initial).
  vm_compute. reflexivity.
Defined.

(** ** The arrays and the bindings *)

Lemma load_input_tensors_prefix W dev name path dm s :
  tensors s `prefix_of` tensors (load_input W dev name path dm s).1.
Proof.
  destruct (load_input_outcome W dev name path dm s); cbn [fst add_events tensors];
    first [reflexivity | by apply prefix_app_r].
Qed.

Lemma for_each_input_tensors_prefix W dev kvs dm s :
  tensors s `prefix_of` tensors (for_each_input W dev kvs dm s).1.
Proof.
  revert dm s. induction kvs as [|[name path] kvs IH]; intros dm s.
  - reflexivity.
  - cbn [for_each_input]. unfold bind.
    pose proof (load_input_tensors_prefix W dev name path dm s) as H1.
    destruct (load_input W dev name path dm s) as [s1 [dm1|e]]; cbn [fst] in *.
    + etrans; [exact H1 | apply IH].
    + exact H1.
Qed.

Lemma load_input_bound_other W dev name path dm s other :
  other <> name ->
  bound (load_input W dev name path dm s).1 !! other = bound s !! other.
Proof.
  intros Hne.
  destruct (load_input_outcome W dev name path dm s); cbn [fst add_events bound];
    first [reflexivity | by rewrite lookup_insert_ne].
Qed.

Lemma for_each_input_bound_other W dev kvs dm s other :
  other ∉ kvs.*1 ->
  bound (for_each_input W dev kvs dm s).1 !! other = bound s !! other.
Proof.
  revert dm s. induction kvs as [|[name path] kvs IH]; intros dm s Hnot.
  - reflexivity.
  - cbn [for_each_input]. unfold bind. cbn [fmap list_fmap fst] in Hnot.
    apply not_elem_of_cons in Hnot as [Hne Hnot].
    pose proof (load_input_bound_other W dev name path dm s other Hne) as H1.
    destruct (load_input W dev name path dm s) as [s1 [dm1|e]]; cbn [fst] in *.
    + rewrite IH by exact Hnot. exact H1.
    + exact H1.
Qed.

(** A round of the loop that gets through allocates exactly one array. *)
Lemma load_input_one_array W dev name path dm s s' dm' :
  load_input W dev name path dm s = (s', Ok dm') ->
  length (tensors s') = S (length (tensors s)).
Proof.
  intros Hrun. pose proof (load_input_outcome W dev name path dm s) as Hout.
  rewrite Hrun in Hout. inversion Hout; subst.
  cbn [tensors]. rewrite length_app. cbn [length]. lia.
Qed.

(** The input at position [i] of the iteration is bound to the array
    allocated [i]-th by the loop. *)
Lemma loaded_inputs_general W dev kvs dm s s' dm' :
  grown_from_table dm ->
  for_each_input W dev kvs dm s = (s', Ok dm') ->
  NoDup kvs.*1 ->
  forall (i : nat) name path,
    kvs !! i = Some (name, path) ->
    exists bs shape ty,
      files W !! path = Some bs /\ shape_info W !! name = Some shape /\
      dtype_info W !! name = Some ty /\
      bound s' !! name = Some (Fresh (length (tensors s) + i)) /\
      tensors s' !! (length (tensors s) + i)%nat
      = Some (mkTensor shape (umap_index dtype_map ty).1 (Some bs)).
Proof.
  revert dm s. induction kvs as [|[n0 p0] kvs IH]; intros dm s Hg Hrun Hnd i name path Hi.
  - by rewrite lookup_nil in Hi.
  - cbn [for_each_input] in Hrun. unfold bind in Hrun.
    cbn [fmap list_fmap fst] in Hnd. apply NoDup_cons in Hnd as [Hfresh Hnd].
    pose proof (load_input_outcome W dev n0 p0 dm s) as Hout.
    destruct (load_input W dev n0 p0 dm s) as [s1 [dm1|e]] eqn:E; [|discriminate].
    pose proof (load_input_grown _ _ _ _ _ _ _ _ Hg E) as Hg1.
    pose proof (load_input_one_array _ _ _ _ _ _ _ _ E) as Hlen1.
    destruct i as [|i].
    + injection Hi as -> ->.
      pose proof (for_each_input_bound_other W dev kvs dm1 s1 name Hfresh) as Hb.
      pose proof (for_each_input_tensors_prefix W dev kvs dm1 s1) as Hp.
      rewrite Hrun in Hb, Hp. cbn [fst] in Hb, Hp.
      inversion Hout as [| | | | |bs shape ty Hf Hs Ht Hv Hlen Hsize Hst]; subst.
      cbn [bound tensors] in Hb, Hp.
      exists bs, shape, ty. rewrite Nat.add_0_r.
      rewrite <- (umap_index_fst_grown dm ty Hg).
      repeat split; try assumption.
      * rewrite Hb. apply lookup_insert_eq.
      * eapply prefix_lookup_Some; [|exact Hp].
        rewrite lookup_app_r by lia. by rewrite Nat.sub_diag.
    + cbn [lookup list_lookup] in Hi.
      destruct (IH dm1 s1 Hg1 Hrun Hnd i name path Hi)
        as (bs & shape & ty & Hf & Hs & Ht & Hb & Hts).
      exists bs, shape, ty. rewrite Hlen1 in Hb, Hts.
      replace (length (tensors s) + S i)%nat with (S (length (tensors s)) + i)%nat by lia.
      auto.
Qed.

(** X3: after the loop over inputs with distinct names has got through,
    the input at position [i] of the iteration is bound to the array the
    loop allocated [i]-th, which has the declared shape and holds the
    bytes of its file, all of them and in order.  No two inputs are bound
    to one array. *)
Theorem loaded_inputs_hold_file_bytes
        (W : World) (dev : DLDevice) (kvs : list (string * string))
        (s s' : state) (dm' : gmap string DLDataType) :
  for_each_input W dev kvs dtype_map s = (s', Ok dm') ->
  NoDup kvs.*1 ->
  (forall (i : nat) name path,
      kvs !! i = Some (name, path) ->
      exists bs shape ty,
        files W !! path = Some bs /\ shape_info W !! name = Some shape /\
        dtype_info W !! name = Some ty /\
        bound s' !! name = Some (Fresh (length (tensors s) + i)) /\
        tensors s' !! (length (tensors s) + i)%nat
        = Some (mkTensor shape (umap_index dtype_map ty).1 (Some bs))) /\
  (forall name1 path1 name2 path2 h,
      (name1, path1) ∈ kvs -> (name2, path2) ∈ kvs ->
      bound s' !! name1 = Some h -> bound s' !! name2 = Some h ->
      name1 = name2).
Proof.
  intros Hrun Hnd.
  pose proof (loaded_inputs_general W dev kvs dtype_map s s' dm'
                grown_from_table_initial Hrun Hnd) as Hall.
  split; [exact Hall|].
  intros name1 path1 name2 path2 h Hin1 Hin2 Hb1 Hb2.
  apply list_elem_of_lookup in Hin1 as [i Hi], Hin2 as [j Hj].
  destruct (Hall i name1 path1 Hi) as (_ & _ & _ & _ & _ & _ & Hbi & _).
  destruct (Hall j name2 path2 Hj) as (_ & _ & _ & _ & _ & _ & Hbj & _).
  rewrite Hb1 in Hbi. rewrite Hb2 in Hbj.
  assert (i = j) as ->.
  { rewrite Hbi in Hbj. injection Hbj as Hij. lia. }
  congruence.
Qed.

Lemma loaded_inputs_hold_file_bytes_witness :
  (forall (i : nat) name path,
      [("x", "x48.bin"); ("m", "m6.bin")] !! i = Some (name, path) ->
      exists bs shape ty,
        files sample_world !! path = Some bs /\
        shape_info sample_world !! name = Some shape /\
        dtype_info sample_world !! name = Some ty /\
        bound (for_each_input sample_world cpu [("x", "x48.bin"); ("m", "m6.bin")]
                              dtype_map initial).1 !! name
        = Some (Fresh (length (tensors initial) + i)) /\
        tensors (for_each_input sample_world cpu [("x", "x48.bin"); ("m", "m6.bin")]
                                dtype_map initial).1 !! (length (tensors initial) + i)%nat
        = Some (mkTensor shape (umap_index dtype_map ty).1 (Some bs))) /\
  (forall name1 path1 name2 path2 h,
      (name1, path1) ∈ [("x", "x48.bin"); ("m", "m6.bin")] ->
      (name2, path2) ∈ [("x", "x48.bin"); ("m", "m6.bin")] ->
      bound (for_each_input sample_world cpu [("x", "x48.bin"); ("m", "m6.bin")]
                            dtype_map initial).1 !! name1 = Some h ->
      bound (for_each_input sample_world cpu [("x", "x48.bin"); ("m", "m6.bin")]
                            dtype_map initial).1 !! name2 = Some h ->
      name1 = name2).
Proof.
  apply (loaded_inputs_hold_file_bytes
           sample_world cpu [("x", "x48.bin"); ("m", "m6.bin")] initial
           _ dtype_map).
  - vm_compute. reflexivity.
  - refine (bool_decide_unpack _ _). vm_compute. exact I.
Defined.

(** Two inputs loaded one after the other, each from its own file into
    its own array. *)
Example load_two_inputs :
  for_each_input sample_world cpu [("x", "x48.bin"); ("m", "m6.bin")] dtype_map initial =
  (mkState [Stat "x48.bin"; OpenRead "x48.bin";
            Empty [1; 3; 2; 2] float32 cpu (Fresh 0); ReadAll "x48.bin";
            CopyFromBytes (Fresh 0) 48; SetInput "x" (Fresh 0);
            Stat "m6.bin"; OpenRead "m6.bin";
            Empty [2; 3] uint8 cpu (Fresh 1); ReadAll "m6.bin";
            CopyFromBytes (Fresh 1) 6; SetInput "m" (Fresh 1)]
           [mkTensor [1; 3; 2; 2] float32 (Some (replicate 48 Byte.x2a));
            mkTensor [2; 3] uint8 (Some (replicate 6 Byte.x01))]
           (<["m" := Fresh 1]> {["x" := Fresh 0]}),
   Ok dtype_map).
Proof. vm_compute. reflexivity. Qed.

Lemma keeps_store_ret {A} (a : A) : keeps_store (ret a).
Proof. intros s. split; reflexivity. Qed.

Lemma keeps_store_emit e : keeps_store (emit e).
Proof. intros s. split; reflexivity. Qed.

Lemma keeps_store_bind {A B} (c : M A) (k : A -> M B) :
  keeps_store c -> (forall a, keeps_store (k a)) -> keeps_store (bind c k).
Proof.
  intros Hc Hk s. unfold bind. destruct (Hc s) as [T1 B1].
  destruct (c s) as [s1 [a|e]]; cbn [fst] in *; [|auto].
  destruct (Hk a s1) as [T2 B2]. split; congruence.
Qed.

Ltac keeps_step :=
  first [ apply keeps_store_bind; [|intros ?]
        | apply keeps_store_emit | apply keeps_store_ret ].

Lemma keeps_store_row_values W n i j rounds : keeps_store (row_values W n i j rounds).
Proof.
  revert j. induction rounds as [|rounds IH]; intros j; cbn [row_values].
  - apply keeps_store_ret.
  - destruct (_ && _); [|apply keeps_store_ret]. repeat keeps_step. apply IH.
Qed.

Lemma keeps_store_print_rows W n i rounds : keeps_store (print_rows W n i rounds).
Proof.
  revert i. induction rounds as [|rounds IH]; intros i; cbn [print_rows].
  - apply keeps_store_ret.
  - destruct (_ <? _); [|apply keeps_store_ret]. unfold print_row.
    apply keeps_store_bind; [|intros ?; apply IH].
    repeat keeps_step. apply keeps_store_row_values.
Qed.

Lemma keeps_store_print_output W : keeps_store (print_output W).
Proof.
  unfold print_output. repeat keeps_step.
  destruct (bool_decide _); [|apply keeps_store_ret].
  repeat keeps_step. apply keeps_store_print_rows.
Qed.

Lemma keeps_store_gather slot call idx values offs :
  keeps_store (gather slot call idx values offs).
Proof.
  revert values offs. induction idx as [|i idx IH]; intros values offs; cbn [gather].
  - apply keeps_store_ret.
  - apply keeps_store_bind; [apply keeps_store_emit | intros ?; apply IH].
Qed.

Lemma keeps_store_evaluate W dev : keeps_store (evaluate W dev).
Proof.
  unfold evaluate.
  do 4 (apply keeps_store_bind; [apply keeps_store_emit | intros _]).
  apply keeps_store_bind; [apply keeps_store_gather | intros [values offs]].
  apply keeps_store_bind; [apply keeps_store_gather | intros [values' offs']].
  repeat keeps_step.
Qed.

Lemma bound_written_keeps {A} (c : M A) s :
  keeps_store c -> bound_written s -> bound_written (c s).1.
Proof.
  intros Hc Hs name h. destruct (Hc s) as [-> ->]. apply Hs.
Qed.

Lemma bound_written_load_input W dev name path dm s :
  bound_written s -> bound_written (load_input W dev name path dm s).1.
Proof.
  intros Hs other h.
  assert (Hold : bound s !! other = Some h ->
                 forall new, exists n t bs,
                   h = Fresh n /\ (tensors s ++ new) !! n = Some t /\
                   t_bytes t = Some bs /\
                   Z.of_nat (length bs) = GetDataSize (t_shape t) (t_dtype t)).
  { intros Hb new. destruct (Hs other h Hb) as (n & t & bs' & -> & Ht' & Hw).
    exists n, t, bs'. split; [reflexivity|]. split; [|exact Hw].
    by apply lookup_app_l_Some. }
  destruct (load_input_outcome W dev name path dm s)
    as [Hf|bs Hf Hn|bs shape ty Hf Hsh Ht Hv|bs shape ty Hf Hsh Ht Hv Hlen
        |bs shape ty Hf Hsh Ht Hv Hlen Hsize|bs shape ty Hf Hsh Ht Hv Hlen Hsize];
    cbn [fst add_events bound tensors].
  - apply Hs.
  - apply Hs.
  - apply Hs.
  - intros Hb. by apply Hold.
  - intros Hb. by apply Hold.
  - destruct (decide (name = other)) as [->|Hne].
    + rewrite lookup_insert_eq. intros [= <-].
      eexists _, _, bs. split; [reflexivity|]. split.
      * rewrite lookup_app_r by lia. by rewrite Nat.sub_diag.
      * split; [reflexivity|]. cbn [t_shape t_dtype]. congruence.
    + rewrite lookup_insert_ne by exact Hne. intros Hb. by apply Hold.
Qed.

Lemma bound_written_for_each_input W dev kvs dm s :
  bound_written s -> bound_written (for_each_input W dev kvs dm s).1.
Proof.
  revert dm s. induction kvs as [|[name path] kvs IH]; intros dm s Hs.
  - exact Hs.
  - cbn [for_each_input]. unfold bind.
    pose proof (bound_written_load_input W dev name path dm s Hs) as H1.
    destruct (load_input W dev name path dm s) as [s1 [dm1|e]]; cbn [fst] in *.
    + by apply IH.
    + exact H1.
Qed.

Lemma bound_written_bind {A B} (c : M A) (k : A -> M B) s :
  bound_written (c s).1 ->
  (forall a s1, bound_written s1 -> bound_written (k a s1).1) ->
  bound_written (bind c k s).1.
Proof.
  intros Hc Hk. unfold bind. destruct (c s) as [s1 [a|e]]; cbn [fst] in *; auto.
Qed.

Lemma bound_written_inference W input_paths dev s :
  bound_written s -> bound_written (inference W input_paths dev s).1.
Proof.
  intros Hs. unfold inference.
  apply bound_written_bind; [apply bound_written_keeps; [apply keeps_store_emit | assumption]|].
  intros _ s1 H1.
  apply bound_written_bind; [apply bound_written_keeps; [apply keeps_store_emit | assumption]|].
  intros _ s2 H2.
  apply bound_written_bind; [by apply bound_written_for_each_input|].
  intros _ s3 H3. apply bound_written_keeps; [|exact H3].
  do 3 (apply keeps_store_bind; [apply keeps_store_emit | intros _]).
  apply keeps_store_print_output.
Qed.

(** X4: at the end of every run of [main], whether it succeeded or failed
    and whatever the world, each binding the executor has received refers
    to an array allocated in this run that has been written from end to
    end: the bytes copied into it are as many as the byte size of the
    array.  An array that is unwritten, or written in part, is never
    bound. *)
Theorem bound_arrays_are_written
        (W : World) (argv : list string) (name : string) (h : handle) :
  bound (main W argv initial).1 !! name = Some h ->
  exists n t bs, h = Fresh n /\
                 tensors (main W argv initial).1 !! n = Some t /\
                 t_bytes t = Some bs /\
                 Z.of_nat (length bs) = GetDataSize (t_shape t) (t_dtype t).
Proof.
  revert name h. change (bound_written (main W argv initial).1).
  assert (H0 : bound_written initial).
  { intros name h H. unfold initial in H. cbn [bound] in H.
    by rewrite lookup_empty in H. }
  unfold main.
  apply bound_written_bind.
  { unfold ICHECK. destruct (2 <=? _); exact H0. }
  intros _ s1 H1. apply bound_written_bind.
  { destruct (parse_args (drop 2 argv) ∅ s1) as [s2 r] eqn:E. cbn [fst].
    assert (s2 = s1) as ->; [|exact H1].
    destruct (forallb contains_colon (drop 2 argv)) eqn:C.
    - rewrite (parse_args_ok _ _ _ C) in E. congruence.
    - destruct (parse_args_malformed _ ∅ s1 C) as (bad & _ & _ & Hrun). congruence. }
  intros input_paths s2 H2. apply bound_written_bind; [|intros _ s3 H3; exact H3].
  unfold DeployGraphExecutor.
  apply bound_written_bind; [apply bound_written_keeps; [apply keeps_store_emit | assumption]|].
  intros _ s3 H3.
  apply bound_written_bind; [apply bound_written_keeps; [apply keeps_store_emit | assumption]|].
  intros _ s4 H4.
  apply bound_written_bind; [apply bound_written_keeps; [apply keeps_store_emit | assumption]|].
  intros _ s5 H5.
  destruct (bool_decide (input_paths = ∅)).
  - apply bound_written_keeps; [apply keeps_store_evaluate | assumption].
  - by apply bound_written_inference.
Qed.

Lemma bound_arrays_are_written_witness :
  exists n t bs,
    Fresh 0 = Fresh n /\
    tensors (main sample_world ["prog"; "lib.so"; "x:x48.bin"] initial).1 !! n = Some t /\
    t_bytes t = Some bs /\
    Z.of_nat (length bs) = GetDataSize (t_shape t) (t_dtype t).
Proof.
  apply (bound_arrays_are_written sample_world ["prog"; "lib.so"; "x:x48.bin"]
                                  "x" (Fresh 0)).
  vm_compute. reflexivity.
Defined.

(** ** The kinds of events of each part *)

Lemma only_events_of P {A} (c : M A) s :
  only P c -> Forall P (events_of c s).
Proof.
  intros H. destruct (H s) as (evs & E & F). unfold events_of.
  by rewrite E, drop_app_length.
Qed.

Section LoaderEvents.

Variable P : event -> Prop.
Variable dev : DLDevice.
Hypothesis loader_events :
  forall e, is_loader_event e = true -> on_device dev e -> P e.

Lemma only_load_input_loader W name path dm : only P (load_input W dev name path dm).
Proof.
  intros s.
  destruct (load_input_outcome W dev name path dm s); cbn [fst add_events trace];
    eexists; (split; [reflexivity|]);
    unfold load_prefix, load_suffix; cbn [app];
    repeat (constructor; [by apply loader_events|]); constructor.
Qed.

Lemma only_for_each_input_loader W kvs dm : only P (for_each_input W dev kvs dm).
Proof.
  revert dm. induction kvs as [|[name path] kvs IH]; intros dm; cbn [for_each_input].
  - apply only_ret.
  - apply only_bind; [apply only_load_input_loader | intros dm'; apply IH].
Qed.

End LoaderEvents.

Section PrintEvents.

Variable P : event -> Prop.
Hypothesis print_events : forall e, is_print_event e = true -> P e.

Lemma only_row_values_print W n i j rounds : only P (row_values W n i j rounds).
Proof.
  revert j. induction rounds as [|rounds IH]; intros j; cbn [row_values].
  - apply only_ret.
  - destruct (_ && _); [|apply only_ret].
    apply only_bind; [by apply only_emit, print_events | intros _].
    apply only_bind; [by apply only_emit, print_events | intros _]. apply IH.
Qed.

Lemma only_print_rows_print W n i rounds : only P (print_rows W n i rounds).
Proof.
  revert i. induction rounds as [|rounds IH]; intros i; cbn [print_rows].
  - apply only_ret.
  - destruct (_ <? _); [|apply only_ret]. unfold print_row.
    apply only_bind; [|intros ?; apply IH].
    apply only_bind; [by apply only_emit, print_events | intros _].
    apply only_bind; [apply only_row_values_print | intros _].
    by apply only_emit, print_events.
Qed.

Lemma only_print_output_print W : only P (print_output W).
Proof.
  unfold print_output.
  apply only_bind; [by apply only_emit, print_events | intros _].
  destruct (bool_decide _); [|apply only_ret].
  apply only_bind; [by apply only_emit, print_events | intros _].
  apply only_print_rows_print.
Qed.

End PrintEvents.









(** X5: the events of [inference] come in a fixed order: the inputs are
    loaded first; the executor is run, once, only if every input has
    passed its checks, and then output 0 is fetched and printing follows.
    After [run] nothing is allocated, copied or bound any more, and when
    an input fails there is no [run] at all. *)
Theorem inference_event_order
        (W : World) (input_paths : gmap string string) (dev : DLDevice) (s : state) :
  exists loading printing,
    Forall (fun e => is_loader_event e = true) loading /\
    Forall (fun e => is_print_event e = true) printing /\
    events_of (inference W input_paths dev) s =
    [Call "inference"; GetInputInfo] ++ loading ++
    (if forallb (loads W) (map_to_list input_paths)
     then [LogInfo "Running graph executor..."; Run; GetOutput 0] ++ printing
     else []).
Proof.
  unfold events_of, inference, bind. rewrite !emit_run, add_events_app. cbn [app].
  set (s0 := add_events _ s).
  pose proof (for_each_input_ok W dev (map_to_list input_paths) dtype_map s0
                                grown_from_table_initial) as Hok.
  destruct (only_for_each_input_loader (fun e => is_loader_event e = true) dev
              (fun e H _ => H) W (map_to_list input_paths) dtype_map s0)
    as (loading & E & F).
  destruct (for_each_input W dev (map_to_list input_paths) dtype_map s0)
    as [s1 [dm1|e]]; cbn [fst snd is_ok] in Hok, E; rewrite <- Hok.
  - rewrite !emit_run, !add_events_app. cbn [app].
    destruct (only_print_output_print (fun e => is_print_event e = true)
                (fun e H => H) W
                (add_events [LogInfo "Running graph executor..."; Run; GetOutput 0] s1))
      as (printing & E2 & F2).
    exists loading, printing. split; [exact F|]. split; [exact F2|].
    rewrite E2. cbn [add_events trace]. rewrite E. subst s0.
    cbn [add_events trace]. rewrite <- !app_assoc. rewrite drop_app_length.
    reflexivity.
  - exists loading, []. split; [exact F|]. split; [constructor|].
    cbn [fst]. rewrite E. subst s0. cbn [add_events trace].
    rewrite <- !app_assoc. rewrite drop_app_length. by rewrite app_nil_r.
Qed.

(** X6: whatever counts the runtime reports, [evaluate] only obtains the
    time evaluator, asks for the counts and the slot handles, calls the
    evaluator and prints: it looks at no file, allocates, copies and
    binds nothing, does not call [run] itself, and leaves the arrays and
    the bindings as they were. *)
Theorem benchmark_touches_no_input (W : World) (dev : DLDevice) (s : state) :
  tensors (evaluate W dev s).1 = tensors s /\
  bound (evaluate W dev s).1 = bound s /\
  exists evs,
    events_of (evaluate W dev) s = Call "evaluate" :: evs /\
    Forall (fun e => is_benchmark_event e = true) evs.
Proof.
  destruct (keeps_store_evaluate W dev s) as [HT HB].
  split; [exact HT|]. split; [exact HB|].
  assert (H : exists evs,
             trace (evaluate W dev s).1 = trace s ++ Call "evaluate" :: evs /\
             Forall (fun e => is_benchmark_event e = true) evs).
  { apply only_after_emit.
    do 3 (apply only_bind; [by apply only_emit | intros _]).
    apply only_bind; [by apply only_gather | intros [values offs]].
    apply only_bind; [by apply only_gather | intros [values' offs']].
    do 2 (apply only_bind; [by apply only_emit | intros _]).
    by apply only_emit. }
  destruct H as (evs & E & F). exists evs. split; [|exact F].
  unfold events_of. by rewrite E, drop_app_length.
Qed.

(** X7: every device the program names in a run, when it creates the
    executor, allocates an array or obtains the time evaluator, is the
    CPU with index 0. *)
Theorem every_device_is_cpu0
        (W : World) (module_path : string)
        (input_paths : gmap string string) (s : state) :
  Forall (fun e => uses_cpu e = true)
         (events_of (DeployGraphExecutor W module_path input_paths) s).
Proof.
  apply only_events_of. unfold DeployGraphExecutor.
  do 3 (apply only_bind; [by apply only_emit | intros _]).
  destruct (bool_decide (input_paths = ∅)).
  - unfold evaluate.
    do 4 (apply only_bind; [by apply only_emit | intros _]).
    apply only_bind; [by apply only_gather | intros [values offs]].
    apply only_bind; [by apply only_gather | intros [values' offs']].
    do 2 (apply only_bind; [by apply only_emit | intros _]).
    by apply only_emit.
  - unfold inference.
    do 2 (apply only_bind; [by apply only_emit | intros _]).
    apply only_bind.
    { apply only_for_each_input_loader.
      intros e Hl Hd. destruct e; try reflexivity; try discriminate.
      cbn [on_device] in Hd. subst dev. reflexivity. }
    intros _.
    do 3 (apply only_bind; [by apply only_emit | intros _]).
    apply only_print_output_print.
    intros e Hp. destruct e; try reflexivity; discriminate.
Qed.

(** ** Success and failure of a whole run *)











(** ** The mapping the parser builds *)

Lemma fold_insert_arg_dom args (m : gmap string string) :
  forallb contains_colon args = true ->
  dom (fold_left insert_arg args m) = list_to_set (arg_name <$> args) ∪ dom m.
Proof.
  revert m. induction args as [|tmp args IH]; intros m H; cbn [fold_left fmap list_fmap].
  - cbn [list_to_set]. by rewrite (left_id_L ∅ (∪)).
  - cbn [forallb] in H. apply andb_prop in H as [H1 H2]. rewrite (IH _ H2).
    cbn [list_to_set]. unfold insert_arg, arg_name, contains_colon, split_arg in *.
    destruct (string_find ":" tmp); [|discriminate].
    rewrite dom_insert_L, (assoc_L (∪)).
    by rewrite (comm_L (∪) (list_to_set (arg_name <$> args)) {[ _ ]}).
Qed.

Lemma fold_insert_arg_origin args (m : gmap string string) name path :
  fold_left insert_arg args m !! name = Some path ->
  m !! name = Some path \/
  exists tmp, tmp ∈ args /\ split_arg tmp = Some (name, path).
Proof.
  revert m. induction args as [|tmp args IH]; intros m H; cbn [fold_left] in H.
  - by left.
  - destruct (IH _ H) as [Hm|(t & Hin & Ht)].
    + unfold insert_arg in Hm. destruct (split_arg tmp) as [[n p]|] eqn:E; [|by left].
      destruct (decide (n = name)) as [->|Hne].
      * rewrite lookup_insert_eq in Hm. injection Hm as ->.
        right. exists tmp. split; [by constructor | exact E].
      * rewrite lookup_insert_ne in Hm by exact Hne. by left.
    + right. exists t. split; [by constructor | exact Ht].
Qed.

(** X10: when parsing succeeds it has touched nothing but the mapping; the
    names of the mapping are exactly the parts of the arguments before
    their first colon, and every entry is the name and path of one of the
    arguments: nothing is invented and no argument is dropped. *)
Theorem parsed_mapping_domain
        (args : list string) (s s' : state) (m : gmap string string) :
  parse_args args ∅ s = (s', Ok m) ->
  s' = s /\
  dom m = list_to_set (arg_name <$> args) /\
  forall name path, m !! name = Some path ->
                    exists tmp, tmp ∈ args /\ split_arg tmp = Some (name, path).
Proof.
  intros Hrun.
  destruct (forallb contains_colon args) eqn:C.
  2:{ destruct (parse_args_malformed _ ∅ s C) as (bad & _ & _ & Hbad). congruence. }
  rewrite (parse_args_ok _ _ _ C) in Hrun. injection Hrun as <- <-.
  split; [reflexivity|]. split.
  - rewrite (fold_insert_arg_dom _ _ C), dom_empty_L. by rewrite (right_id_L ∅ (∪)).
  - intros name path H. destruct (fold_insert_arg_origin _ _ _ _ H) as [H0|H1];
      [by rewrite lookup_empty in H0 | exact H1].
Qed.

Lemma parsed_mapping_domain_witness :
  initial = initial /\
  dom (<["x" := "b.bin"]> (<["y" := "c:d"]> (∅ : gmap string string)))
  = list_to_set (arg_name <$> ["x:a.bin"; "y:c:d"; "x:b.bin"]) /\
  forall name path,
    <["x" := "b.bin"]> (<["y" := "c:d"]> (∅ : gmap string string)) !! name = Some path ->
    exists tmp, tmp ∈ ["x:a.bin"; "y:c:d"; "x:b.bin"] /\
                split_arg tmp = Some (name, path).
Proof.
  apply (parsed_mapping_domain ["x:a.bin"; "y:c:d"; "x:b.bin"] initial initial).
  vm_compute. reflexivity.
Defined.

Lemma fold_insert_join pairs (m : gmap string string) :
  forallb (fun kv => negb (contains_colon kv.1)) pairs = true ->
  fold_left insert_arg (join_arg <$> pairs) m = list_to_map (reverse pairs) ∪ m.
Proof.
  revert m. induction pairs as [|[name path] pairs IH]; intros m H;
    cbn [fmap list_fmap fold_left].
  - rewrite reverse_nil, list_to_map_nil. by rewrite (left_id_L ∅ (∪)).
  - cbn [forallb fst] in H. apply andb_prop in H as [H1 H2].
    apply negb_true_iff in H1. rewrite (IH _ H2).
    unfold insert_arg, join_arg. cbn [fst snd]. rewrite (split_arg_app _ _ H1).
    rewrite reverse_cons, list_to_map_app, list_to_map_cons, list_to_map_nil.
    cbn [fst snd].
    rewrite insert_empty, <- (assoc_L (∪)), <- insert_union_singleton_l.
    reflexivity.
Qed.

(** X11: parsing inverts the formation of arguments.  For any pairs whose
    names have no colon (the paths may have), parsing the arguments
    [name:path] succeeds and gives back exactly the pairs, the later pair
    replacing an earlier one of the same name. *)
Theorem parse_join_round_trip (pairs : list (string * string)) (s : state) :
  forallb (fun kv => negb (contains_colon kv.1)) pairs = true ->
  parse_args (join_arg <$> pairs) ∅ s = (s, Ok (list_to_map (reverse pairs))).
Proof.
  intros H. rewrite parse_args_ok.
  - rewrite (fold_insert_join _ _ H). by rewrite (right_id_L ∅ (∪)).
  - clear s. induction pairs as [|[name path] pairs IH]; [reflexivity|].
    cbn [forallb fst] in H. apply andb_prop in H as [H1 H2].
    apply negb_true_iff in H1. cbn [fmap list_fmap forallb].
    rewrite (IH H2), andb_true_r. unfold contains_colon, join_arg. cbn [fst snd].
    pose proof (split_arg_app name path H1) as E. unfold split_arg in E.
    by destruct (string_find ":" (name +:+ String ":" path)).
Qed.

Lemma parse_join_round_trip_witness :
  parse_args (join_arg <$> [("x", "a.bin"); ("y", "c:d"); ("x", "b.bin")]) ∅ initial
  = (initial, Ok (list_to_map (reverse [("x", "a.bin"); ("y", "c:d"); ("x", "b.bin")]))).
Proof.
  apply (parse_join_round_trip [("x", "a.bin"); ("y", "c:d"); ("x", "b.bin")] initial).
  reflexivity.
Defined.

(** ** What the verbose output shows *)

Lemma printed_values_app evs1 evs2 :
  printed_values (evs1 ++ evs2) = printed_values evs1 ++ printed_values evs2.
Proof. apply omap_app. Qed.

Lemma printed_values_row W i :
  printed_values (row_events W i) = output_data W <$> seqZ (i * 10) 10.
Proof.
  replace (seqZ (i * 10) 10) with (seqZ (i * 10 + 0) 10) by (f_equal; lia).
  rewrite <- (fmap_add_seqZ (i * 10) 0 10). reflexivity.
Qed.

Lemma printed_values_rows W (k : nat) i :
  printed_values (flat_map (row_events W) (seqZ i (Z.of_nat k)))
  = output_data W <$> seqZ (i * 10) (10 * Z.of_nat k).
Proof.
  revert i. induction k as [|k IH]; intros i.
  - rewrite Z.mul_0_r. reflexivity.
  - rewrite seqZ_cons_succ. cbn [flat_map].
    rewrite printed_values_app, printed_values_row, IH.
    replace (10 * Z.of_nat (S k)) with (10 + 10 * Z.of_nat k) by lia.
    rewrite seqZ_app by lia. rewrite fmap_app.
    replace ((i + 1) * 10) with (i * 10 + 10) by lia. reflexivity.
Qed.

(** X12: with the toggle set to ["ON"] and up to [INT_MAX] elements, the
    numbers written are exactly the first [10 * (N / 10)] elements of the
    output, each once and in their order; what is left over beyond the
    last full row of ten is not written. *)
Theorem printed_values_are_prefix (W : World) (s : state) :
  environ W !! "cpp_bench_debug" = Some "ON" ->
  0 <= product (output_shape W) <= INT_MAX ->
  printed_values (events_of (print_output W) s)
  = output_data W <$> seqZ 0 (10 * (product (output_shape W) / 10)).
Proof.
  intros Henv HN.
  rewrite (events_of_add_events _ _ _ _ (print_output_in_range W s Henv HN)).
  assert (Hq : 0 <= product (output_shape W) / 10) by (apply Z.div_pos; lia).
  change (printed_values
            (flat_map (row_events W) (seqZ 0 (product (output_shape W) / 10)))
          = output_data W <$> seqZ 0 (10 * (product (output_shape W) / 10))).
  rewrite <- (Z2Nat.id _ Hq). apply (printed_values_rows W _ 0).
Qed.

Lemma printed_values_are_prefix_witness :
  printed_values (events_of (print_output sample_world) initial)
  = output_data sample_world <$> seqZ 0 (10 * (product (output_shape sample_world) / 10)).
Proof.
  apply (printed_values_are_prefix sample_world initial).
  - reflexivity.
  - vm_compute. split; discriminate.
Defined.

(** X13: up to [INT_MAX] elements, no number at all is written exactly
    when the toggle is not the string ["ON"] or the output has fewer than
    ten elements. *)
Theorem nothing_printed_iff (W : World) (s : state) :
  0 <= product (output_shape W) <= INT_MAX ->
  count_events is_value (events_of (print_output W) s) = 0%nat <->
  environ W !! "cpp_bench_debug" <> Some "ON" \/ product (output_shape W) < 10.
Proof.
  intros HN.
  destruct (decide (environ W !! "cpp_bench_debug" = Some "ON")) as [Henv|Henv].
  - destruct (print_output_counts W s Henv HN) as [_ Hv].
    assert (Hq : 0 <= product (output_shape W) / 10) by (apply Z.div_pos; lia).
    split.
    + intros H0. right. rewrite H0 in Hv.
      assert (Hz : product (output_shape W) / 10 = 0) by lia.
      apply Z.div_small_iff in Hz; lia.
    + intros [Hoff|Hsmall]; [contradiction|].
      rewrite (Z.div_small _ 10) in Hv by lia. lia.
  - rewrite (events_of_add_events _ _ _ _ (print_output_off W s Henv)).
    split; [by left | reflexivity].
Qed.

Lemma nothing_printed_iff_witness :
  count_events is_value (events_of (print_output sample_world) initial) = 0%nat <->
  environ sample_world !! "cpp_bench_debug" <> Some "ON" \/
  product (output_shape sample_world) < 10.
Proof.
  apply (nothing_printed_iff sample_world initial).
  vm_compute. split; discriminate.
Defined.

(** ** Sizes and the table *)

Lemma product_zero shape : 0 ∈ shape -> product shape = 0.
Proof.
  induction shape as [|d shape IH]; intros H; [by apply elem_of_nil in H|].
  cbn [product foldr]. apply elem_of_cons in H as [<-|H]; [reflexivity|].
  unfold product in IH. rewrite (IH H). lia.
Qed.

(** X14: a shape with a dimension 0 makes the expected byte length and the
    element count 0, whatever the other dimensions are (also when their
    product does not fit an [int]) and whatever the element type. *)
Theorem zero_dimension_expects_nothing (shape : list Z) (dtype : DLDataType) :
  0 ∈ shape -> input_size shape dtype = 0 /\ output_num shape = 0.
Proof.
  intros H. rewrite input_size_product, output_num_product, (product_zero _ H).
  split; reflexivity.
Qed.

Lemma zero_dimension_expects_nothing_witness :
  input_size [4294967296; 0; 7] float32 = 0 /\ output_num [4294967296; 0; 7] = 0.
Proof.
  apply (zero_dimension_expects_nothing [4294967296; 0; 7] float32).
  refine (bool_decide_unpack _ _). vm_compute. exact I.
Defined.

Lemma umap_index_snd_lookup dm ty k d :
  (umap_index dm ty).2 !! k = Some d ->
  dm !! k = Some d \/ (dm !! ty = None /\ k = ty /\ d = DLDataType_zero).
Proof.
  unfold umap_index. destruct (dm !! ty) eqn:E; cbn [snd]; [by left|].
  destruct (decide (ty = k)) as [->|Hne].
  - rewrite lookup_insert_eq. intros [= <-]. by right.
  - rewrite lookup_insert_ne by exact Hne. by left.
Qed.

Lemma umap_index_snd_keeps dm ty k d :
  dm !! k = Some d -> (umap_index dm ty).2 !! k = Some d.
Proof.
  intros H. unfold umap_index. destruct (dm !! ty) eqn:E; cbn [snd]; [exact H|].
  rewrite lookup_insert_ne; [exact H | congruence].
Qed.

Lemma table_entries_general W dev kvs dm s s' dm' :
  for_each_input W dev kvs dm s = (s', Ok dm') ->
  (forall ty d, dm !! ty = Some d -> dm' !! ty = Some d) /\
  (forall ty d, dm' !! ty = Some d ->
     dm !! ty = Some d \/
     (d = DLDataType_zero /\
      exists name path, (name, path) ∈ kvs /\ dtype_info W !! name = Some ty)).
Proof.
  revert dm s. induction kvs as [|[name path] kvs IH]; intros dm s Hrun.
  - injection Hrun as _ <-. split; [auto | by left].
  - cbn [for_each_input] in Hrun. unfold bind in Hrun.
    pose proof (load_input_outcome W dev name path dm s) as Hout.
    destruct (load_input W dev name path dm s) as [s1 [dm1|e]]; [|discriminate].
    destruct (IH dm1 s1 Hrun) as [Hkeep Hnew].
    inversion Hout as [| | | | |bs shape ty0 Hf Hs Ht Hv Hlen Hsize Hst]; subst.
    split.
    + intros ty d H. apply Hkeep. by apply umap_index_snd_keeps.
    + intros ty d H. destruct (Hnew ty d H) as [H1|(-> & n & p & Hin & Hd)].
      * destruct (umap_index_snd_lookup _ _ _ _ H1) as [H2|(_ & -> & ->)]; [by left|].
        right. split; [reflexivity|]. exists name, path.
        split; [by constructor | exact Ht].
      * right. split; [reflexivity|]. exists n, p. split; [by constructor | exact Hd].
Qed.

(** A round that gets through has looked up a type the table holds, so
    the table is as it was. *)
Lemma load_input_table_same W dev name path dm s s' dm' :
  grown_from_table dm ->
  load_input W dev name path dm s = (s', Ok dm') -> dm' = dm.
Proof.
  intros Hg Hrun. pose proof (load_input_outcome W dev name path dm s) as Hout.
  rewrite Hrun in Hout.
  inversion Hout as [| | | | |bs shape ty Hf Hs Ht Hv Hlen Hsize Hst]; subst.
  destruct (verified_dtype dm ty Hg Hv) as (d & _ & Hd & _). by rewrite Hd.
Qed.

Lemma for_each_input_table_same W dev kvs dm s s' dm' :
  grown_from_table dm ->
  for_each_input W dev kvs dm s = (s', Ok dm') -> dm' = dm.
Proof.
  revert dm s. induction kvs as [|[name path] kvs IH]; intros dm s Hg Hrun.
  - by injection Hrun as _ <-.
  - cbn [for_each_input] in Hrun. unfold bind in Hrun.
    destruct (load_input W dev name path dm s) as [s1 [dm1|e]] eqn:E; [|discriminate].
    pose proof (load_input_table_same _ _ _ _ _ _ _ _ Hg E) as ->.
    by apply (IH dm s1).
Qed.

(** X15: the loop over the inputs never changes an entry of the type
    table.  After it has got through, the six entries are as before, and
    whatever else the table then holds is a zero triple under a type
    string that one of the inputs declares.  In fact it then holds
    nothing else: a lookup that enters a zero triple is followed by an
    allocation that the library refuses, so a loop that gets through
    leaves the table as it was. *)
Theorem table_entries_survive
        (W : World) (dev : DLDevice) (kvs : list (string * string))
        (s s' : state) (dm' : gmap string DLDataType) :
  for_each_input W dev kvs dtype_map s = (s', Ok dm') ->
  (forall ty d, dtype_map !! ty = Some d -> dm' !! ty = Some d) /\
  (forall ty d, dm' !! ty = Some d ->
     dtype_map !! ty = Some d \/
     (d = DLDataType_zero /\ (ty ∉ supported_dtypes) /\
      exists name path, (name, path) ∈ kvs /\ dtype_info W !! name = Some ty)) /\
  dm' = dtype_map.
Proof.
  intros Hrun. destruct (table_entries_general _ _ _ _ _ _ _ Hrun) as [Hkeep Hnew].
  split; [exact Hkeep|]. split.
  - intros ty d H.
    destruct (Hnew ty d H) as [H1|(-> & Hc)]; [by left|].
    destruct (dtype_map !! ty) as [d0|] eqn:E.
    + left. rewrite (Hkeep ty d0 E) in H. exact H.
    + right. split; [reflexivity|]. split; [|exact Hc].
      intros Hin. apply (not_elem_of_list_to_map_2 _ _ E). exact Hin.
  - exact (for_each_input_table_same _ _ _ _ _ _ _ grown_from_table_initial Hrun).
Qed.

Lemma table_entries_survive_witness :
  (forall ty d, dtype_map !! ty = Some d -> dtype_map !! ty = Some d) /\
  (forall ty d, dtype_map !! ty = Some d ->
     dtype_map !! ty = Some d \/
     (d = DLDataType_zero /\ (ty ∉ supported_dtypes) /\
      exists name path, (name, path) ∈ [("x", "x48.bin"); ("m", "m6.bin")] /\
                        dtype_info sample_world !! name = Some ty)) /\
  dtype_map = dtype_map.
Proof.
  apply (table_entries_survive sample_world cpu [("x", "x48.bin"); ("m", "m6.bin")]
                               initial
                               (for_each_input sample_world cpu
                                  [("x", "x48.bin"); ("m", "m6.bin")]
                                  dtype_map initial).1).
  vm_compute. reflexivity.
Defined.




(** ** The module *)



